(** * pg-replica-auditor: a shallow embedding of [pgreplicaauditor/checksummer.py]

    The auditor compares one table on a primary database and on a replica:
    it probes [ROWS] ids spread over the id space ([main]), re-checks the
    1000 newest rows of the replica ([last_1000]) and reports the logical
    lag ([lag]).  The Python code is embedded as state-passing functions
    over a [world] that holds the two cursors, the queries sent to each
    database and the lines printed.  The constant banner lines, the
    colours and the optional DEBUG trace are left out of the printed lines;
    the statements themselves are recorded as sent.  The legacy top-level
    script [checksummer.py] is embedded in [Module Legacy] where it
    differs. *)

From Stdlib Require Import ZArith List Lia String.
From Stdlib Require Import Reals Lra.
From Corelib Require Import SpecFloat.
From stdpp Require Import base option list gmap strings.

Local Open Scope string_scope.
Local Open Scope Z_scope.

(** ** Values, rows and queries *)

#[global] Instance spec_float_eq_dec : EqDecision spec_float.
Proof. solve_decision. Defined.

(** A column value as psycopg2 hands it to Python.  A [datetime] is kept as
    its number of microseconds since the epoch, a [timedelta] as a number of
    microseconds, a [float] as its binary64 (NaN and the infinities
    included).  Columns of other types ([Decimal], arrays, ...) are not
    covered. *)
Inductive value : Type :=
| VNone
| VInt (n : Z)
| VText (s : string)
| VDatetime (us : Z)
| VTimedelta (us : Z)
| VFloat (x : spec_float).

#[global] Instance value_eq_dec : EqDecision value.
Proof. solve_decision. Defined.

(** *** Python's equality

    Two values fetched by two cursors are never the same object, so the
    comparison of rows comes down to [==] on the values: a NaN is equal to
    nothing, itself included; [0.0 == -0.0]; an int and a float are equal
    when they stand for the same number. *)

(** The number an int or a float stands for: not a number, an infinity, or
    the fraction [num / den] with [den > 0]. *)
Inductive number : Type :=
| NotANumber
| Infinity (negative : bool)
| Fraction (num den : Z).

Definition number_of_float (x : spec_float) : number :=
  match x with
  | S754_zero _ => Fraction 0 1
  | S754_infinity s => Infinity s
  | S754_nan => NotANumber
  | S754_finite s m e =>
      if 0 <=? e then Fraction (cond_Zopp s (Z.pos m * 2 ^ e)) 1
      else Fraction (cond_Zopp s (Z.pos m)) (2 ^ (- e))
  end.

Definition number_eqb (a b : number) : bool :=
  match a, b with
  | Fraction n1 d1, Fraction n2 d2 => n1 * d2 =? n2 * d1
  | Infinity s1, Infinity s2 => Bool.eqb s1 s2
  | _, _ => false
  end.

(** [a == b] *)
Definition py_eq (a b : value) : bool :=
  match a, b with
  | VFloat x, VFloat y => number_eqb (number_of_float x) (number_of_float y)
  | VInt n, VFloat y => number_eqb (Fraction n 1) (number_of_float y)
  | VFloat x, VInt n => number_eqb (number_of_float x) (Fraction n 1)
  | _, _ => bool_decide (a = b)
  end.

(** [t1 == t2] on tuples: the same length and equal item by item. *)
Fixpoint py_tuple_eq (t1 t2 : list value) : bool :=
  match t1, t2 with
  | [], [] => true
  | x :: t1, y :: t2 => py_eq x y && py_tuple_eq t1 t2
  | _, _ => false
  end.

(** [d1 == d2] on dicts: the same number of keys, and every key of [d1] is
    a key of [d2] with an equal value. *)
Definition py_dict_eq (d1 d2 : gmap string value) : bool :=
  Nat.eqb (size d1) (size d2) &&
  forallb (fun kv : string * value =>
             match d2 !! kv.1 with
             | Some v => py_eq kv.2 v
             | None => false
             end) (map_to_list d1).

(** [d1 != d2] *)
Definition py_dict_ne (d1 d2 : gmap string value) : bool :=
  negb (py_dict_eq d1 d2).

(** [r1 != r2] for two results of [fetchone] on plain cursors: a tuple or
    [None]. *)
Definition py_fetched_ne (r1 r2 : option (list value)) : bool :=
  match r1, r2 with
  | Some t1, Some t2 => negb (py_tuple_eq t1 t2)
  | None, None => false
  | _, _ => true
  end.

(** A [DictRow]: the columns in the order of the cursor description, each
    with its name.  [r[0]] is the value of the first column, [dict(r)] the
    mapping from names to values. *)
Definition row : Type := list (string * value).

Definition dict (r : row) : gmap string value :=
  foldl (fun m kv => <[kv.1 := kv.2]> m) ∅ r.

(** The four statements the auditor sends:
    - [SelectById t i]: SELECT * FROM "t" WHERE "id" = i LIMIT 1
    - [SelectLatestIds t]: SELECT "id" FROM "t" ORDER BY "id" DESC LIMIT 1000
    - [SelectByIds t ids]: SELECT * FROM "t" WHERE id IN (ids) ORDER BY "id" DESC LIMIT 1000
    - [SelectMaxUpdatedAt t]: SELECT MAX(updated_at) FROM "t"
    The id list of [SelectByIds] keeps the values whose [str] is joined
    with commas. *)
Inductive query : Type :=
| SelectById (table : string) (id_ : Z)
| SelectLatestIds (table : string)
| SelectByIds (table : string) (ids : list value)
| SelectMaxUpdatedAt (table : string).

(** ** Exceptions *)

Inductive message : Type :=
| RowsDiffer (id_ : Z)
    (* 'Rows at id = {} are different.' *)
| Last1000Count
    (* 'Last 1000: Primary and replica do not have the same number of rows.' *)
| Last1000RowsDiffer (id_ : value).
    (* 'Last 1000: Rows at id = {id_} are different.' *)

Inductive exn : Type :=
| Exception (m : message)
| TypeError
| IndexError
| UnboundLocalError
| OverflowError
| ValueError
| DatabaseError (what : string).

(** A database, seen from the auditor: a statement gives a result set, or
    fails with the server's message (raised as a [DatabaseError]).  The
    auditor only reads, so a database is a function of the statement. *)
Definition connection : Type := query -> string + list row.

Inductive side : Type := Primary | Replica.

(** ** The world the auditor runs in *)

Inductive output : Type :=
| PrintRow (s : side) (d : gmap string value)
| PrintRows (d1 d2 : gmap string value)
| Progress
| PrintOK (checked missing : nat)
| PrintLag (v : value).

Record world : Type := World {
  c1 : list row;                 (* rows left to fetch on the primary cursor *)
  c2 : list row;                 (* rows left to fetch on the replica cursor *)
  sent : list (side * query);    (* statements executed so far, oldest first *)
  out : list output              (* lines printed so far, oldest first *)
}.

Definition fresh : world := World [] [] [] [].

Definition M (A : Type) : Type := world -> (exn + A) * world.

Definition ret {A} (a : A) : M A := fun w => (inr a, w).
Definition raise {A} (e : exn) : M A := fun w => (inl e, w).
Definition bind {A B} (m : M A) (k : A -> M B) : M B :=
  fun w => match m w with
           | (inl e, w') => (inl e, w')
           | (inr a, w') => k a w'
           end.
Definition lift {A} (r : exn + A) : M A :=
  match r with inl e => raise e | inr a => ret a end.

Notation "'let*' x ':=' m 'in' k" := (bind m (fun x => k))
  (at level 10, x pattern, m at level 100, k at level 200).

Definition pending (s : side) (w : world) : list row :=
  match s with Primary => c1 w | Replica => c2 w end.

Definition set_pending (s : side) (rs : list row) (w : world) : world :=
  match s with
  | Primary => World rs (c2 w) (sent w) (out w)
  | Replica => World (c1 w) rs (sent w) (out w)
  end.

Definition print (o : output) : M unit :=
  fun w => (inr tt, World (c1 w) (c2 w) (sent w) (out w ++ [o])).

(** Python's [r[0]] on a row and on the result of [fetchone()]. *)
Definition item0 (r : row) : exn + value :=
  match r with
  | [] => inl IndexError
  | (_, v) :: _ => inr v
  end.

Definition opt_item0 (r : option row) : exn + value :=
  match r with
  | None => inl TypeError
  | Some r => item0 r
  end.

(** ** The floating-point sample generator *)

Definition prec : Z := 53.
Definition emax : Z := 1024.

(** [float(i)] for a Python int: correctly rounded to binary64 (ties to
    even), OverflowError when out of range. *)
Definition float_of_int (i : Z) : exn + spec_float :=
  match binary_normalize prec emax i 0 false with
  | S754_infinity _ => inl OverflowError
  | f => inr f
  end.

(** [a - b]: [datetime - datetime], [float - float] (an int is made a
    float first); [None - x] and [x - None] raise TypeError. *)
Definition py_sub (a b : value) : exn + value :=
  match a, b with
  | VDatetime x, VDatetime y => inr (VTimedelta (x - y))
  | VTimedelta x, VTimedelta y => inr (VTimedelta (x - y))
  | VDatetime x, VTimedelta y => inr (VDatetime (x - y))
  | VInt x, VInt y => inr (VInt (x - y))
  | VFloat x, VFloat y => inr (VFloat (SFsub prec emax x y))
  | VInt x, VFloat y =>
      match float_of_int x with
      | inl e => inl e
      | inr fx => inr (VFloat (SFsub prec emax fx y))
      end
  | VFloat x, VInt y =>
      match float_of_int y with
      | inl e => inl e
      | inr fy => inr (VFloat (SFsub prec emax x fy))
      end
  | _, _ => inl TypeError
  end.

(** The literal [2.38]: the binary64 nearest to 238/100. *)
Definition exponent : spec_float :=
  SFdiv prec emax (binary_normalize prec emax 238 0 false)
                  (binary_normalize prec emax 100 0 false).

(** Python's [round(x)] on a float: an int, ties to even; OverflowError on
    an infinity, ValueError on a NaN. *)
Definition round_half_even (m : positive) (e : Z) : Z :=
  if 0 <=? e then Z.pos m * 2 ^ e
  else
    let d := 2 ^ (- e) in
    let q := Z.pos m / d in
    let r := Z.pos m mod d in
    match 2 * r ?= d with
    | Lt => q
    | Gt => q + 1
    | Eq => if Z.even q then q else q + 1
    end.

Definition py_round (x : spec_float) : exn + Z :=
  match x with
  | S754_zero _ => inr 0
  | S754_infinity _ => inl OverflowError
  | S754_nan => inl ValueError
  | S754_finite s m e => inr (cond_Zopp s (round_half_even m e))
  end.

Definition ROWS : Z := 8128.

(** [range(n)] *)
Definition range (n : Z) : list Z := Z.of_nat <$> seq 0 (Z.to_nat n).

(** The local variables of [last_1000]'s loop; [row1] is [None] while the
    name is unbound. *)
Record locals : Type := Locals {
  checked : nat;
  missing : nat;
  row1 : option row
}.

Fixpoint items0 (rs : list row) : exn + list value :=
  match rs with
  | [] => inr []
  | r :: rs =>
      match item0 r with
      | inl e => inl e
      | inr v => match items0 rs with
                 | inl e => inl e
                 | inr vs => inr (v :: vs)
                 end
      end
  end.

Section Auditor.

(** [float_pow x y] is Python's [x ** y] on floats, which ends in the C
    library's [pow]; its results are not fixed by the language, so it is
    a parameter.  An overflow is an infinite result here: Python raises
    OverflowError at the power, the embedding at the [round] around it. *)
Variable float_pow : spec_float -> spec_float -> spec_float.

(** The two databases and the table audited. *)
Variables primary replica : connection.
Variable table : string.

Definition db (s : side) : connection :=
  match s with Primary => primary | Replica => replica end.

Definition _func (i : Z) : exn + spec_float :=
  match float_of_int i with
  | inl e => inl e
  | inr x => inr (float_pow x exponent)
  end.

(** [round(_func(i))] *)
Definition sample_id (i : Z) : exn + Z :=
  match _func i with
  | inl e => inl e
  | inr x => py_round x
  end.

(** *** Cursors

    The cursors are client-side: [execute] brings the whole result set,
    and the fetches hand its rows out.  A result set is taken as the rows
    already converted to Python values: a fetch that fails in the
    conversion (psycopg2 raises ValueError on a timestamp outside the range
    of [datetime]) is outside the embedding, and so is a [print] that
    fails on its stream.  The errors that are modelled are the server's, at
    [execute], and Python's own in the auditor's code. *)

Definition execute (s : side) (q : query) : M unit :=
  fun w =>
    let w' := World (c1 w) (c2 w) (sent w ++ [(s, q)]) (out w) in
    match db s q with
    | inl e => (inl (DatabaseError e), w')
    | inr rs => (inr tt, set_pending s rs w')
    end.

Definition fetchone (s : side) : M (option row) :=
  fun w =>
    match pending s w with
    | [] => (inr None, w)
    | r :: rs => (inr (Some r), set_pending s rs w)
    end.

Definition fetchall (s : side) : M (list row) :=
  fun w => (inr (pending s w), set_pending s [] w).

(** *** check *)

(** Python's [None], [False], [True] are [None], [Some false],
    [Some true]. *)
Definition check (id_ : Z) : M (option bool) :=
  let query := SelectById table id_ in
  let* _ := execute Primary query in
  let* _ := execute Replica query in
  let* r1 := fetchone Primary in
  let* r2 := fetchone Replica in
  match r1, r2 with
  | Some r1, Some r2 =>
      if py_dict_ne (dict r1) (dict r2) then
        let* _ := print (PrintRow Primary (dict r1)) in
        let* _ := print (PrintRow Replica (dict r2)) in
        ret (Some false)
      else ret (Some true)
  | _, _ => ret None
  end.

(** *** last_1000 *)

(** The loop [for idx, row2 in enumerate(r2)], from index [idx] on.  It
    gives the outcome together with the local variables at the exit. *)
Fixpoint last_1000_loop (r1 : list row) (idx : nat) (r2 : list row)
         (l : locals) (w : world) : (exn + unit) * locals * world :=
  match r2 with
  | [] => (inr tt, l, w)
  | row2 :: rest =>
      (* try: row1 = r1[idx]   except IndexError: missing += 1 *)
      let l := match r1 !! idx with
               | Some r => Locals (checked l) (missing l) (Some r)
               | None => Locals (checked l) (S (missing l)) (row1 l)
               end in
      (* checked += 1 *)
      let l := Locals (S (checked l)) (missing l) (row1 l) in
      match row1 l with
      | None => (inl UnboundLocalError, l, w)
      | Some r =>
          if py_dict_ne (dict r) (dict row2) then
            let w := snd (print (PrintRows (dict r) (dict row2)) w) in
            match item0 r with
            | inl e => (inl e, l, w)
            | inr v => (inl (Exception (Last1000RowsDiffer v)), l, w)
            end
          else last_1000_loop r1 (S idx) rest l w
      end
  end.

Definition last_1000 : M unit :=
  let query1 := SelectLatestIds table in
  let* _ := execute Replica query1 in
  let* available := fetchall Replica in
  let* ids_available_on_replica := lift (items0 available) in
  let query := SelectByIds table ids_available_on_replica in
  let* _ := execute Primary query in
  let* _ := execute Replica query in
  let* r1 := fetchall Primary in
  let* r2 := fetchall Replica in
  if decide (length r1 ≠ length r2) then raise (Exception Last1000Count)
  else
    fun w =>
      match last_1000_loop r1 0 r2 (Locals 0 0 None) w with
      | (inl e, _, w') => (inl e, w')
      | (inr _, l, w') => print (PrintOK (checked l) (missing l)) w'
      end.

(** *** lag *)

Definition lag : M value :=
  let query := SelectMaxUpdatedAt table in
  let* _ := execute Primary query in
  let* _ := execute Replica query in
  let* f1 := fetchone Primary in
  let* r1 := lift (opt_item0 f1) in
  let* f2 := fetchone Replica in
  let* r2 := lift (opt_item0 f2) in
  lift (py_sub r1 r2).

(** *** main *)

(** The sampling loop [for i in range(ROWS)] over the indices still to
    do, with the counters so far. *)
Fixpoint sample_loop (todo : list Z) (checked missing : nat) : M (nat * nat) :=
  match todo with
  | [] => ret (checked, missing)
  | i :: rest =>
      let* id_ := lift (sample_id i) in
      let* result := check id_ in
      match result with
      | None =>
          let* _ := print Progress in
          sample_loop rest checked (S missing)
      | Some false => raise (Exception (RowsDiffer id_))
      | Some true =>
          let* _ := print Progress in
          sample_loop rest (S checked) missing
      end
  end.

(** [c1 = primary.cursor(...)], [c2 = replica.cursor(...)]: two new
    cursors, nothing to fetch yet. *)
Definition new_cursors : M unit :=
  fun w => (inr tt, World [] [] (sent w) (out w)).

Definition main : M unit :=
  let* _ := new_cursors in
  let* counts := sample_loop (range ROWS) 0 0 in
  let* _ := print (PrintOK (fst counts) (snd counts)) in
  let* _ := last_1000 in
  let* l := lag in
  print (PrintLag l).

End Auditor.

(** ** The legacy script [checksummer.py] *)

Module Legacy.

(** A plain cursor gives tuples: the values without the names. *)
Definition tuple (r : row) : list value := map snd r.

Section Check.
Variables src dest : connection.
Variable table : string.

Definition check (id_ : Z) : M (option bool) :=
  let query := SelectById table id_ in
  let* _ := execute src dest Primary query in
  let* _ := execute src dest Replica query in
  let* r1 := fetchone Primary in
  let* r2 := fetchone Replica in
  match r1, r2 with
  | None, None => ret None
  | _, _ =>
      if py_fetched_ne (option_map tuple r1) (option_map tuple r2)
      then ret (Some false)
      else ret (Some true)
  end.
End Check.

(** The literal [2.4] of the legacy [_func]: the binary64 nearest to
    24/10. *)
Definition exponent : spec_float :=
  SFdiv prec emax (binary_normalize prec emax 24 0 false)
                  (binary_normalize prec emax 10 0 false).

Section Audit.
Variable float_pow : spec_float -> spec_float -> spec_float.

(** The databases behind the two cursors that are passed around. *)
Variables src dest : connection.
Variable table : string.

Definition _func (i : Z) : exn + spec_float :=
  match float_of_int i with
  | inl e => inl e
  | inr x => inr (float_pow x exponent)
  end.

(** [round(_func(i))] *)
Definition sample_id (i : Z) : exn + Z :=
  match _func i with
  | inl e => inl e
  | inr x => py_round x
  end.

(** The loop [for idx, row1 in enumerate(r1)] of the legacy [last_1000],
    from index [idx] on: it walks the rows of the source and indexes the
    rows of the destination. *)
Fixpoint last_1000_loop (r1 : list row) (idx : nat) (r2 : list row)
  : exn + unit :=
  match r1 with
  | [] => inr tt
  | row1 :: rest =>
      (* row2 = r2[idx] *)
      match r2 !! idx with
      | None => inl IndexError
      | Some row2 =>
          if negb (py_tuple_eq (tuple row1) (tuple row2)) then
            match item0 row1 with
            | inl e => inl e
            | inr v => inl (Exception (Last1000RowsDiffer v))
            end
          else last_1000_loop rest (S idx) r2
      end
  end.

Definition last_1000 : M unit :=
  let query1 := SelectLatestIds table in
  let* _ := execute src dest Replica query1 in
  let* available := fetchall Replica in
  let* ids_available_on_dest := lift (items0 available) in
  let query := SelectByIds table ids_available_on_dest in
  let* _ := execute src dest Primary query in
  let* _ := execute src dest Replica query in
  let* r1 := fetchall Primary in
  let* r2 := fetchall Replica in
  lift (last_1000_loop r1 0 r2).

(** The sampling loop of the legacy [main]: no counters. *)
Fixpoint sample_loop (todo : list Z) : M unit :=
  match todo with
  | [] => ret tt
  | i :: rest =>
      let* id_ := lift (sample_id i) in
      let* result := check src dest table id_ in
      match result with
      | None =>
          let* _ := print Progress in
          sample_loop rest
      | Some false => raise (Exception (RowsDiffer id_))
      | Some true =>
          let* _ := print Progress in
          sample_loop rest
      end
  end.

End Audit.

(** The legacy [main].  Its two cursors are both made on the source
    connection ([c1 = src.cursor()], [c2 = src.cursor()]); the destination
    connection is opened and named in the banner only.  The legacy [lag] is
    the packaged one, word for word. *)
Definition main (float_pow : spec_float -> spec_float -> spec_float)
    (src dest : connection) (table : string) : M unit :=
  let c1 := src in
  let c2 := src in
  let* _ := new_cursors in
  let* _ := sample_loop float_pow c1 c2 table (range ROWS) in
  let* _ := last_1000 c1 c2 table in
  let* l := lag c1 c2 table in
  print (PrintLag l).

End Legacy.

(** ** The process environment: [checksummer], [connect], [_debug] *)

(** [os.getenv(k)] on an environment kept as a map. *)
Definition getenv (env : gmap string string) (k : string) : option string :=
  env !! k.

(** The truth value Python gives to the result of [os.getenv]: [None] and
    the empty string are false. *)
Definition truthy (v : option string) : bool :=
  match v with
  | Some s => negb (String.eqb s "")
  | None => false
  end.

(** What the command [checksummer] does to [os.environ] before it calls
    [main]. *)
Definition checksummer (primary replica : string) (debug : bool)
    (env : gmap string string) : gmap string string :=
  let env := <["REPLICA_DB_URL" := replica]> env in
  let env := <["PRIMARY_DB_URL" := primary]> env in
  if debug then <["DEBUG" := "True"]> env else env.

(** The two URLs [connect] hands to [psycopg2.connect], primary first. *)
Definition connect (env : gmap string string) : option string * option string :=
  (getenv env "PRIMARY_DB_URL", getenv env "REPLICA_DB_URL").

(** [_debug(cursor)], for a cursor on the connection [dsn] whose last
    statement is [q]: the lines it prints. *)
Definition _debug (env : gmap string string) (dsn : string) (q : query)
  : list (string * query) :=
  if truthy (getenv env "DEBUG") then [(dsn, q)] else [].

(** ** A reference database

    One table kept as a list of rows, answering the four statements the way
    PostgreSQL does; it serves as the concrete database of the examples. *)

Definition row_id (r : row) : Z :=
  match dict r !! "id" with
  | Some (VInt n) => n
  | _ => 0
  end.

Fixpoint insert_desc (r : row) (rs : list row) : list row :=
  match rs with
  | [] => [r]
  | x :: xs => if row_id x <=? row_id r then r :: rs else x :: insert_desc r xs
  end.

Definition order_by_id_desc (rs : list row) : list row :=
  foldr insert_desc [] rs.

Definition max_updated_at (rs : list row) : value :=
  foldl (fun acc r =>
           match dict r !! "updated_at", acc with
           | Some (VDatetime t), VDatetime m => VDatetime (Z.max t m)
           | Some (VDatetime t), _ => VDatetime t
           | _, _ => acc
           end) VNone rs.

Definition table_db (rows : list row) : connection :=
  fun q =>
    match q with
    | SelectById _ i =>
        inr (take 1 (filter (fun r => dict r !! "id" = Some (VInt i)) rows))
    | SelectLatestIds _ =>
        inr ((fun r => [("id", VInt (row_id r))])
               <$> take 1000 (order_by_id_desc rows))
    | SelectByIds _ [] => inl "syntax error at or near )"
    | SelectByIds _ ids =>
        inr (take 1000 (order_by_id_desc
               (filter (fun r => VInt (row_id r) ∈ ids) rows)))
    | SelectMaxUpdatedAt _ => inr [[("max", max_updated_at rows)]]
    end.

(** A row of a table with columns id, name, updated_at. *)
Definition mk_row (i : Z) (name : string) (t : Z) : row :=
  [("id", VInt i); ("name", VText name); ("updated_at", VDatetime t)].

(** The values of [x ** 2.38] that the C library returns on the first
    integers, as binary64 numbers; other arguments are left out (NaN). *)
Definition pow_samples (x y : spec_float) : spec_float :=
  match x with
  | S754_zero _ => S754_zero false
  | S754_finite false 4503599627370496 (-52) =>       (* 1.0 *)
      S754_finite false 4503599627370496 (-52)  (* 1.0 *)
  | S754_finite false 4503599627370496 (-51) =>       (* 2.0 *)
      S754_finite false 5860722695249921 (-50)  (* 5.2053674217677335 *)
  | S754_finite false 6755399441055744 (-51) =>       (* 3.0 *)
      S754_finite false 7691629807026345 (-49)  (* 13.663079213846077 *)
  | S754_finite false 4503599627370496 (-50) =>       (* 4.0 *)
      S754_finite false 7626803746467182 (-48)  (* 27.095849995600865 *)
  | S754_finite false 5629499534213120 (-50) =>       (* 5.0 *)
      S754_finite false 6485723151743102 (-47)  (* 46.08383471622163 *)
  | _ => S754_nan
  end.


(** ** The vocabulary of the specification *)

(** The three outcomes of the row comparator, as [main] reads the result of
    [check]: [None] counts as missing, [False] aborts the run, [True] counts
    as checked. *)
Inductive classification : Type := Absent | Match | Mismatch.

Definition classify (result : option bool) : classification :=
  match result with
  | None => Absent
  | Some true => Match
  | Some false => Mismatch
  end.

(** *** The sample generator over the reals *)

(** Neither an infinity nor a NaN. *)
Definition is_finite (x : spec_float) : bool :=
  match x with
  | S754_zero _ | S754_finite _ _ _ => true
  | _ => false
  end.

(** The real number a finite binary64 stands for. *)
Definition SF2R (x : spec_float) : R :=
  match x with
  | S754_finite s m e =>
      if 0 <=? e then IZR (cond_Zopp s (Z.pos m * 2 ^ e))
      else (IZR (cond_Zopp s (Z.pos m)) / IZR (2 ^ (- e)))%R
  | _ => 0%R
  end.

(** The power [i ^ e] over the reals, for an integer [i >= 0]. *)
Definition real_pow (i : Z) (e : R) : R :=
  if i =? 0 then 0%R else Rpower (IZR i) e.

(** [float_pow] is accurate below [N]: for every index [i] in [0, N) the
    power computed is a finite float less than 1/2 away from the real power
    of [i] by the exponent that the literal 2.38 stands for. *)
Definition accurate (float_pow : spec_float -> spec_float -> spec_float) (N : Z) : Prop :=
  forall i, 0 <= i < N ->
    exists x, _func float_pow i = inr x /\ is_finite x = true /\
      (Rabs (SF2R x - real_pow i (SF2R exponent)) < 1/2)%R.

(** The generator gives an id for every index in [0, N), and the ids are
    strictly increasing in the index. *)
Definition generates_increasing (float_pow : spec_float -> spec_float -> spec_float) (N : Z) : Prop :=
  forall i j, 0 <= i < j -> j < N ->
    exists a b, sample_id float_pow i = inr a /\
                sample_id float_pow j = inr b /\ a < b.

(** The two statements [check] sends for an id. *)
Definition point_queries (table : string) (id_ : Z) : list (side * query) :=
  [(Primary, SelectById table id_); (Replica, SelectById table id_)].

(** The three statements [last_1000] sends. *)
Definition recency_queries (table : string) (ids : list value)
  : list (side * query) :=
  [(Replica, SelectLatestIds table);
   (Primary, SelectByIds table ids);
   (Replica, SelectByIds table ids)].

(** The world in which [last_1000] has fetched its two result sets. *)
Definition fetched (table : string) (ids : list value) (w : world) : world :=
  World [] [] (sent w ++ recency_queries table ids)%list (out w).

(** A computation [frames] when running it in a world is running it with
    empty logs and putting the earlier logs in front. *)
Definition frames {A} (m : M A) : Prop :=
  forall w,
    m w = let '(r, w') := m (World (c1 w) (c2 w) [] []) in
          (r, World (c1 w') (c2 w') (sent w ++ sent w')%list
                    (out w ++ out w')%list).

(** ** Example tables *)

Definition t1 : list row :=
  [mk_row 1 "a" 10; mk_row 5 "b" 30; mk_row 14 "c" 20].

(** [t1] with the row of id 5 altered and the row of id 14 not yet there. *)
Definition t2 : list row :=
  [mk_row 1 "a" 10; mk_row 5 "B" 30].

(** [t1] reduced to the row of id 1. *)
Definition t3 : list row :=
  [mk_row 1 "a" 10].

(** [t1] with the row of id 5 altered. *)
Definition t4 : list row :=
  [mk_row 1 "a" 10; mk_row 5 "B" 30; mk_row 14 "c" 20].

(** A table whose rows have no modification time. *)
Definition t_null : list row :=
  [[("id", VInt 1); ("name", VText "a"); ("updated_at", VNone)]].

(** The two statements [lag] sends. *)
Definition lag_queries (table : string) : list (side * query) :=
  [(Primary, SelectMaxUpdatedAt table); (Replica, SelectMaxUpdatedAt table)].

(** [SELECT "id"] rows. *)
Definition id_rows (ids : list Z) : list row :=
  map (fun i => [("id", VInt i)]) ids.





(** The index [i] is sampled as [id_] and [check] does not answer [False]
    for it. *)
Definition passes (float_pow : spec_float -> spec_float -> spec_float)
    (primary replica : connection) (table : string) (i id_ : Z) : Prop :=
  sample_id float_pow i = inr id_ /\
  (fst (check primary replica table id_ fresh) = inr None \/
   fst (check primary replica table id_ fresh) = inr (Some true)).

(** A computation is [quiet] when it never raises an error of the
    auditor's own, the ones that report a difference. *)
Definition quiet {A} (m : M A) : Prop :=
  forall (w : world) (msg : message), fst (m w) <> inl (Exception msg).

(** A database that is down. *)
Definition refusing : connection :=
  fun _ => inl "server closed the connection unexpectedly".

(** The square, a total stand-in for the power. *)
Definition pow_square (x y : spec_float) : spec_float := SFmul prec emax x x.

(** [t3] with the columns in another order. *)
Definition t5 : list row :=
  [[("name", VText "a"); ("id", VInt 1); ("updated_at", VDatetime 10)]].

(** A row of a table with columns name, id, updated_at. *)
Definition mk_row_name_first (i : Z) (name : string) (t : Z) : row :=
  [("name", VText name); ("id", VInt i); ("updated_at", VDatetime t)].

(** [t5] with the name altered. *)
Definition t8 : list row :=
  [mk_row_name_first 1 "A" 10].

(** A table with a NaN in a float column. *)
Definition t_nan : list row :=
  [[("id", VInt 1); ("score", VFloat S754_nan); ("updated_at", VDatetime 10)]].

(** [t1] reduced to the row of id 14. *)
Definition t6 : list row :=
  [mk_row 14 "c" 20].

(** The row of id 1, twice. *)
Definition t7 : list row :=
  [mk_row 1 "a" 10; mk_row 1 "a" 10].

(** A value that is equal to itself: every value but a NaN. *)
Definition self_equal (v : value) : Prop := py_eq v v = true.

(** A row all of whose values are equal to themselves. *)
Definition self_equal_row (r : row) : Prop := Forall self_equal r.*2.

(** A database all of whose answers are made of such rows. *)
Definition self_equal_db (d : connection) : Prop :=
  forall (q : query) (rs : list row), d q = inr rs -> Forall self_equal_row rs.

Local Close Scope string_scope.

(** ** Running [check] *)

Section CheckProperties.

Variables primary replica : connection.
Variable table : string.

Lemma check_run (id_ : Z) (rs1 rs2 : list row) (w : world) :
  primary (SelectById table id_) = inr rs1 ->
  replica (SelectById table id_) = inr rs2 ->
  check primary replica table id_ w =
    let s := sent w ++ point_queries table id_ in
    match head rs1, head rs2 with
    | Some a, Some b =>
        if py_dict_ne (dict a) (dict b)
        then (inr (Some false),
              World (tail rs1) (tail rs2) s
                    (out w ++ [PrintRow Primary (dict a);
                               PrintRow Replica (dict b)]))
        else (inr (Some true), World (tail rs1) (tail rs2) s (out w))
    | _, _ => (inr None, World (tail rs1) (tail rs2) s (out w))
    end.
Proof.
  intros H1 H2. unfold check, bind, execute, fetchone, point_queries.
  simpl. rewrite H1. simpl. rewrite H2. simpl.
  rewrite <- !app_assoc. simpl.
  destruct rs1 as [|a rs1], rs2 as [|b rs2]; simpl; try reflexivity.
  destruct (py_dict_ne (dict a) (dict b)); simpl; [|reflexivity].
  unfold print, ret; simpl. rewrite <- app_assoc. reflexivity.
Qed.

(** C1 (as the code has it): [check] answers [None] (Absent) exactly when
    the row is missing on the primary or on the replica, one side being
    enough; when both rows are there it answers [True] (Match) if they
    are equal as dictionaries ([dict(r1) != dict(r2)] is false) and [False]
    (Mismatch) otherwise. *)
Theorem check_absent_when_either_side_missing
    (id_ : Z) (rs1 rs2 : list row) (w : world) :
  primary (SelectById table id_) = inr rs1 ->
  replica (SelectById table id_) = inr rs2 ->
  exists result : option bool,
    fst (check primary replica table id_ w) = inr result /\
    (classify result = Absent <-> head rs1 = None \/ head rs2 = None) /\
    (forall a b, head rs1 = Some a -> head rs2 = Some b ->
       classify result
         = if py_dict_ne (dict a) (dict b) then Mismatch else Match).
Proof.
  intros H1 H2. rewrite (check_run _ _ _ _ H1 H2). cbv zeta.
  destruct (head rs1) as [a|] eqn:Ea, (head rs2) as [b|] eqn:Eb.
  - destruct (py_dict_ne (dict a) (dict b)) eqn:Hne.
    + exists (Some false). simpl. split; [reflexivity|]. split.
      * split; [discriminate | intros [?|?]; discriminate].
      * intros a' b' [= <-] [= <-]. rewrite Hne. reflexivity.
    + exists (Some true). simpl. split; [reflexivity|]. split.
      * split; [discriminate | intros [?|?]; discriminate].
      * intros a' b' [= <-] [= <-]. rewrite Hne. reflexivity.
  - exists None. simpl. split; [reflexivity|]. split.
    + split; auto.
    + intros; discriminate.
  - exists None. simpl. split; [reflexivity|]. split.
    + split; auto.
    + intros; discriminate.
  - exists None. simpl. split; [reflexivity|]. split.
    + split; auto.
    + intros; discriminate.
Qed.

End CheckProperties.

(** The row of id 14 is on the primary [t1] only.  [check] answers [None],
    which [main] counts as missing, and the whole run of [check] is the one
    it makes when the row is on neither side. *)
Lemma check_one_side_missing_not_mismatch :
  table_db t1 (SelectById "t" 14) = inr [mk_row 14 "c" 20] /\
  table_db t2 (SelectById "t" 14) = inr [] /\
  fst (check (table_db t1) (table_db t2) "t" 14 fresh) = inr None /\
  classify None <> Mismatch /\
  check (table_db t1) (table_db t2) "t" 14 fresh
    = check (table_db t2) (table_db t2) "t" 14 fresh.
Proof.
  repeat split; try reflexivity; try discriminate.
Qed.

Lemma check_absent_witness :
  exists result : option bool,
    fst (check (table_db t1) (table_db t2) "t" 5 fresh) = inr result /\
    (classify result = Absent <->
       head [mk_row 5 "b" 30] = None \/ head [mk_row 5 "B" 30] = None) /\
    (forall a b, head [mk_row 5 "b" 30] = Some a -> head [mk_row 5 "B" 30] = Some b ->
       classify result
         = if py_dict_ne (dict a) (dict b) then Mismatch else Match).
Proof.
  apply (check_absent_when_either_side_missing
           (table_db t1) (table_db t2) "t" 5
           [mk_row 5 "b" 30] [mk_row 5 "B" 30] fresh); reflexivity.
Defined.

(** The legacy script answers [False] for the same pair: there only "both
    missing" is [None]. *)
Lemma legacy_check_one_side_missing :
  fst (Legacy.check (table_db t1) (table_db t2) "t" 14 fresh) = inr (Some false).
Proof. reflexivity. Qed.

(** ** The logs only grow, and nothing reads them *)

Lemma frames_ret {A} (a : A) : frames (ret a).
Proof. intros [a1 a2 s o]. unfold ret. simpl. rewrite !app_nil_r. reflexivity. Qed.

Lemma frames_raise {A} (e : exn) : frames (@raise A e).
Proof. intros [a1 a2 s o]. unfold raise. simpl. rewrite !app_nil_r. reflexivity. Qed.

Lemma frames_lift {A} (r : exn + A) : frames (lift r).
Proof. destruct r; [apply frames_raise | apply frames_ret]. Qed.

Lemma frames_print (o : output) : frames (print o).
Proof. intros [a1 a2 s o']. unfold print. simpl. rewrite app_nil_r. reflexivity. Qed.

Lemma frames_bind {A B} (m : M A) (k : A -> M B) :
  frames m -> (forall a, frames (k a)) -> frames (bind m k).
Proof.
  intros Hm Hk w. unfold bind. rewrite (Hm w).
  destruct (m (World (c1 w) (c2 w) [] [])) as [[e|a] w1]; [reflexivity|].
  rewrite (Hk a (World (c1 w1) (c2 w1) (sent w ++ sent w1) (out w ++ out w1))).
  rewrite (Hk a w1). simpl.
  destruct (k a (World (c1 w1) (c2 w1) [] [])) as [r w2]. simpl.
  rewrite <- !app_assoc. reflexivity.
Qed.

Lemma frames_fetchone (s : side) : frames (fetchone s).
Proof.
  intros [a1 a2 q o]. unfold fetchone.
  destruct s; simpl; [destruct a1 | destruct a2]; simpl;
    rewrite !app_nil_r; reflexivity.
Qed.

Lemma frames_fetchall (s : side) : frames (fetchall s).
Proof.
  intros [a1 a2 q o]. unfold fetchall.
  destruct s; simpl; rewrite !app_nil_r; reflexivity.
Qed.

Section Frames.

Variable float_pow : spec_float -> spec_float -> spec_float.
Variables primary replica : connection.
Variable table : string.

Lemma frames_execute (s : side) (q : query) :
  frames (execute primary replica s q).
Proof.
  intros [a1 a2 l o]. unfold execute. simpl.
  destruct (db primary replica s q); simpl.
  - rewrite app_nil_r. reflexivity.
  - destruct s; simpl; rewrite app_nil_r; reflexivity.
Qed.

Lemma frames_check (id_ : Z) : frames (check primary replica table id_).
Proof.
  unfold check.
  repeat (apply frames_bind; [first [apply frames_execute | apply frames_fetchone]|intros ?]).
  repeat match goal with
         | |- frames (match ?x with _ => _ end) => destruct x
         | |- frames (bind _ _) => apply frames_bind; [|intros ?]
         | |- frames (print _) => apply frames_print
         | |- frames (ret _) => apply frames_ret
         end.
Qed.

Lemma frames_sample_loop (todo : list Z) :
  forall checked missing,
    frames (sample_loop float_pow primary replica table todo checked missing).
Proof.
  induction todo as [|i rest IH]; intros ck ms; simpl.
  - apply frames_ret.
  - apply frames_bind; [apply frames_lift|intros id_].
    apply frames_bind; [apply frames_check|intros [[|]|]].
    + apply frames_bind; [apply frames_print|intros _; apply IH].
    + apply frames_raise.
    + apply frames_bind; [apply frames_print|intros _; apply IH].
Qed.

Lemma last_1000_loop_frames (r1 r2 : list row) :
  forall idx l w,
    last_1000_loop r1 idx r2 l w =
      let '(r, l', w') := last_1000_loop r1 idx r2 l (World (c1 w) (c2 w) [] []) in
      (r, l', World (c1 w') (c2 w') (sent w ++ sent w') (out w ++ out w')).
Proof.
  induction r2 as [|row2 rest IH]; intros idx l [a1 a2 s o]; simpl.
  - rewrite !app_nil_r. reflexivity.
  - set (l1 := match r1 !! idx with
               | Some r => Locals (checked l) (missing l) (Some r)
               | None => Locals (checked l) (S (missing l)) (row1 l)
               end).
    destruct (row1 l1) as [r|]; [|simpl; rewrite ?app_nil_r; reflexivity].
    destruct (py_dict_ne (dict r) (dict row2)).
    + simpl. destruct (item0 r); simpl; rewrite ?app_nil_r; reflexivity.
    + rewrite IH. simpl. reflexivity.
Qed.

Lemma frames_last_1000 : frames (last_1000 primary replica table).
Proof.
  unfold last_1000.
  apply frames_bind; [apply frames_execute|intros _].
  apply frames_bind; [apply frames_fetchall|intros available].
  apply frames_bind; [apply frames_lift|intros ids].
  apply frames_bind; [apply frames_execute|intros _].
  apply frames_bind; [apply frames_execute|intros _].
  apply frames_bind; [apply frames_fetchall|intros r1].
  apply frames_bind; [apply frames_fetchall|intros r2].
  destruct (decide (length r1 ≠ length r2)); [apply frames_raise|].
  intros w. rewrite last_1000_loop_frames.
  destruct (last_1000_loop r1 0 r2 (Locals 0 0 None) (World (c1 w) (c2 w) [] []))
    as [[[e|u] l] w1]; simpl.
  - reflexivity.
  - unfold print. simpl. rewrite <- app_assoc. reflexivity.
Qed.

Lemma frames_lag : frames (lag primary replica table).
Proof.
  unfold lag.
  repeat (apply frames_bind;
          [first [apply frames_execute | apply frames_fetchone | apply frames_lift]
          |intros ?]).
  apply frames_lift.
Qed.

End Frames.

(** ** The loop of [last_1000] *)

Section RecencyLoop.

Implicit Types (l : locals) (w : world).

(** When [r1] has a row for every index the loop visits, the handler of
    IndexError never runs: [missing] keeps its value at every exit, and a
    loop that completes has counted each row of [r2] once and printed
    nothing. *)
Lemma last_1000_loop_aligned (r1 r2 : list row) :
  forall idx l w,
    length r1 = (idx + length r2)%nat ->
    let '(r, l', w') := last_1000_loop r1 idx r2 l w in
    missing l' = missing l /\
    (forall u, r = inr u ->
       checked l' = (checked l + length r2)%nat /\ w' = w).
Proof.
  induction r2 as [|row2 rest IH]; intros idx l w Hlen; simpl.
  - split; [reflexivity|]. intros _ _. split; [lia|reflexivity].
  - simpl in Hlen.
    destruct (r1 !! idx) as [r|] eqn:E.
    + simpl. destruct (py_dict_ne (dict r) (dict row2)).
      * destruct (item0 r); simpl; (split; [reflexivity|discriminate]).
      * specialize (IH (S idx) (Locals (S (checked l)) (missing l) (Some r)) w).
        destruct (last_1000_loop r1 (S idx) rest _ w) as [[r' l'] w'].
        destruct IH as [Hm Hc]; [lia|]. simpl in *.
        split; [exact Hm|]. intros u Hu. destruct (Hc u Hu) as [-> ->].
        split; [lia|reflexivity].
    + apply lookup_ge_None in E. lia.
Qed.

(** The rows before the first difference pass; at the first difference
    the loop prints both rows and raises with [row1[0]], whatever comes
    after. *)
Lemma last_1000_loop_first_difference (pre1 pre2 : list row) :
  Forall2 (fun x y => py_dict_ne (dict x) (dict y) = false) pre1 pre2 ->
  forall (done : list row) (a b : row) (post1 post2 : list row) l w,
    py_dict_ne (dict a) (dict b) = true ->
    last_1000_loop (done ++ pre1 ++ a :: post1) (length done)
                   (pre2 ++ b :: post2) l w =
      (match item0 a with
       | inl e => inl e
       | inr v => inl (Exception (Last1000RowsDiffer v))
       end,
       Locals (checked l + length pre2 + 1) (missing l) (Some a),
       snd (print (PrintRows (dict a) (dict b)) w)).
Proof.
  induction 1 as [|x y pre1 pre2 Hxy Hall IH];
    intros done a b post1 post2 l w Hab.
  - simpl. rewrite list_lookup_middle by reflexivity. simpl.
    rewrite Hab.
    replace (checked l + 0 + 1)%nat with (S (checked l)) by lia.
    destruct (item0 a); reflexivity.
  - simpl. rewrite list_lookup_middle by reflexivity. simpl.
    rewrite Hxy.
    specialize (IH (done ++ [x]) a b post1 post2
                   (Locals (S (checked l)) (missing l) (Some x)) w Hab).
    rewrite length_app in IH. simpl in IH.
    replace (length done + 1)%nat with (S (length done)) in IH by lia.
    rewrite <- app_assoc in IH. simpl in IH. rewrite IH. simpl.
    f_equal. f_equal. f_equal. lia.
Qed.

(** Rows that are pairwise equal as dictionaries all pass. *)
Lemma last_1000_loop_all_equal (p1 r2 : list row) :
  Forall2 (fun x y => py_dict_ne (dict x) (dict y) = false) p1 r2 ->
  forall (done : list row) l w,
    exists r' : option row,
      last_1000_loop (done ++ p1) (length done) r2 l w =
        (inr tt, Locals (checked l + length r2) (missing l) r', w).
Proof.
  induction 1 as [|x y p1 r2 Hxy Hall IH]; intros done l w.
  - simpl. exists (row1 l). destruct l as [c m r]. simpl.
    replace (c + 0)%nat with c by lia. reflexivity.
  - simpl. rewrite list_lookup_middle by reflexivity. simpl.
    rewrite Hxy.
    destruct (IH (done ++ [x]) (Locals (S (checked l)) (missing l) (Some x)) w)
      as [r' Hr'].
    rewrite length_app in Hr'. simpl in Hr'.
    replace (length done + 1)%nat with (S (length done)) in Hr' by lia.
    rewrite <- app_assoc in Hr'. simpl in Hr'.
    exists r'. rewrite Hr'. simpl.
    f_equal. f_equal. f_equal. lia.
Qed.

End RecencyLoop.

(** ** The recency check *)

Section RecencyProperties.

Variables primary replica : connection.
Variable table : string.

(** What the three statements of [last_1000] give. *)
Variables (available : list row) (ids : list value) (r1 r2 : list row).
Hypothesis latest_ok : replica (SelectLatestIds table) = inr available.
Hypothesis ids_ok : items0 available = inr ids.
Hypothesis primary_ok : primary (SelectByIds table ids) = inr r1.
Hypothesis replica_ok : replica (SelectByIds table ids) = inr r2.

Lemma last_1000_run (w : world) :
  last_1000 primary replica table w =
    if decide (length r1 ≠ length r2)
    then (inl (Exception Last1000Count), fetched table ids w)
    else match last_1000_loop r1 0 r2 (Locals 0 0 None) (fetched table ids w) with
         | (inl e, _, w') => (inl e, w')
         | (inr _, l, w') => print (PrintOK (checked l) (missing l)) w'
         end.
Proof.
  unfold last_1000, bind, execute, fetchall, fetched, recency_queries.
  simpl. rewrite latest_ok. simpl. rewrite ids_ok. simpl.
  rewrite primary_ok. simpl. rewrite replica_ok. simpl.
  rewrite <- !app_assoc. simpl.
  destruct (decide (length r1 ≠ length r2)); reflexivity.
Qed.


(** When the result sets agree up to a position and differ there,
    [last_1000] prints the two rows and raises the error that carries
    [row1[0]], the first column of the primary's row at that position.  The
    loop stops there: [checked] is the number of positions up to and
    including it, and the rows after it play no part in the outcome. *)
Lemma last_1000_first_mismatch
    (pre1 pre2 post1 post2 : list row) (a b : row) (v : value) (w : world) :
  r1 = pre1 ++ a :: post1 ->
  r2 = pre2 ++ b :: post2 ->
  Forall2 (fun x y => py_dict_ne (dict x) (dict y) = false) pre1 pre2 ->
  length post1 = length post2 ->
  py_dict_ne (dict a) (dict b) = true ->
  item0 a = inr v ->
  last_1000 primary replica table w =
    (inl (Exception (Last1000RowsDiffer v)),
     snd (print (PrintRows (dict a) (dict b)) (fetched table ids w))) /\
  last_1000_loop r1 0 r2 (Locals 0 0 None) (fetched table ids w) =
    (inl (Exception (Last1000RowsDiffer v)),
     Locals (length pre2 + 1) 0 (Some a),
     snd (print (PrintRows (dict a) (dict b)) (fetched table ids w))).
Proof.
  intros E1 E2 Hpre Hpost Hab Ha.
  assert (Hloop :
    last_1000_loop r1 0 r2 (Locals 0 0 None) (fetched table ids w) =
      (inl (Exception (Last1000RowsDiffer v)),
       Locals (length pre2 + 1) 0 (Some a),
       snd (print (PrintRows (dict a) (dict b)) (fetched table ids w)))).
  { rewrite E1, E2.
    pose proof (last_1000_loop_first_difference pre1 pre2 Hpre []
                  a b post1 post2 (Locals 0 0 None) (fetched table ids w) Hab) as H.
    simpl in H. rewrite H. rewrite Ha. reflexivity. }
  split; [|exact Hloop].
  rewrite last_1000_run.
  destruct (decide (length r1 ≠ length r2)) as [Hne|_].
  - exfalso. apply Hne. rewrite E1, E2, !length_app. simpl.
    apply Forall2_length in Hpre. lia.
  - rewrite Hloop. reflexivity.
Qed.

(** C10: when the two result sets have the same length, every index the
    loop visits has a row in [r1], so the handler of IndexError never
    runs: [missing] is 0 at every exit of the loop, a loop that completes
    has [checked] equal to the number of replica rows, and that is what
    [last_1000] prints. *)
Theorem last_1000_index_error_unreachable :
  length r1 = length r2 ->
  (forall idx : nat, (idx < length r2)%nat -> is_Some (r1 !! idx)) /\
  (forall w : world,
     let '(r, l, _) := last_1000_loop r1 0 r2 (Locals 0 0 None) w in
     missing l = 0%nat /\
     (forall u, r = inr u -> checked l = length r2)) /\
  (forall w : world,
     fst (last_1000 primary replica table w) = inr tt ->
     out (snd (last_1000 primary replica table w))
       = out w ++ [PrintOK (length r2) 0]).
Proof.
  intros Hlen. split; [|split].
  - intros idx Hidx. apply lookup_lt_is_Some. lia.
  - intros w.
    pose proof (last_1000_loop_aligned r1 r2 0 (Locals 0 0 None) w Hlen) as H.
    destruct (last_1000_loop r1 0 r2 (Locals 0 0 None) w) as [[r l] w'].
    destruct H as [Hm Hc]. split; [exact Hm|].
    intros u Hu. destruct (Hc u Hu) as [-> _]. reflexivity.
  - intros w. rewrite last_1000_run.
    destruct (decide (length r1 ≠ length r2)) as [Hne|_]; [contradiction|].
    pose proof (last_1000_loop_aligned r1 r2 0 (Locals 0 0 None)
                  (fetched table ids w) Hlen) as H.
    destruct (last_1000_loop r1 0 r2 (Locals 0 0 None) (fetched table ids w))
      as [[[e|u] l] w']; [discriminate|].
    destruct H as [Hm Hc]. destruct (Hc u eq_refl) as [Hck ->].
    intros _. simpl. rewrite Hm, Hck. reflexivity.
Qed.

End RecencyProperties.


(** Primary [t1], replica [t4]: the rows of id 14 agree, those of id 5
    differ, the row of id 1 is never looked at. *)
Lemma last_1000_first_mismatch_example :
  last_1000 (table_db t1) (table_db t4) "t" fresh =
    (inl (Exception (Last1000RowsDiffer (VInt 5))),
     snd (print (PrintRows (dict (mk_row 5 "b" 30)) (dict (mk_row 5 "B" 30)))
            (fetched "t" [VInt 14; VInt 5; VInt 1] fresh))) /\
  last_1000_loop [mk_row 14 "c" 20; mk_row 5 "b" 30; mk_row 1 "a" 10] 0
                 [mk_row 14 "c" 20; mk_row 5 "B" 30; mk_row 1 "a" 10]
                 (Locals 0 0 None) (fetched "t" [VInt 14; VInt 5; VInt 1] fresh) =
    (inl (Exception (Last1000RowsDiffer (VInt 5))),
     Locals (length [mk_row 14 "c" 20] + 1) 0 (Some (mk_row 5 "b" 30)),
     snd (print (PrintRows (dict (mk_row 5 "b" 30)) (dict (mk_row 5 "B" 30)))
            (fetched "t" [VInt 14; VInt 5; VInt 1] fresh))).
Proof.
  apply (last_1000_first_mismatch (table_db t1) (table_db t4) "t"
           (id_rows [14; 5; 1]) [VInt 14; VInt 5; VInt 1]
           [mk_row 14 "c" 20; mk_row 5 "b" 30; mk_row 1 "a" 10]
           [mk_row 14 "c" 20; mk_row 5 "B" 30; mk_row 1 "a" 10]
           eq_refl eq_refl eq_refl eq_refl
           [mk_row 14 "c" 20] [mk_row 14 "c" 20]
           [mk_row 1 "a" 10] [mk_row 1 "a" 10]
           (mk_row 5 "b" 30) (mk_row 5 "B" 30) (VInt 5) fresh);
    try reflexivity.
  constructor 2; [reflexivity|constructor 1].
Qed.

(** C5: the message of the recency error is written to name the id of the
    diverging row, but what the code puts in it is [row1[0]].  On a table
    whose first column is not the id (here name, id, updated_at) the rows
    of id 1 differ and the error names the value of the name column. *)
Theorem last_1000_error_names_first_column :
  dict (mk_row_name_first 1 "a" 10) !! "id"%string = Some (VInt 1) /\
  item0 (mk_row_name_first 1 "a" 10) = inr (VText "a") /\
  last_1000 (table_db t5) (table_db t8) "t" fresh =
    (inl (Exception (Last1000RowsDiffer (VText "a"))),
     snd (print (PrintRows (dict (mk_row_name_first 1 "a" 10))
                           (dict (mk_row_name_first 1 "A" 10)))
            (fetched "t" [VInt 1] fresh))).
Proof. repeat split; reflexivity. Qed.

(** Primary and replica both [t1]: three rows on each side. *)
Lemma last_1000_index_error_unreachable_witness :
  (forall idx : nat, (idx < 3)%nat -> is_Some (order_by_id_desc t1 !! idx)) /\
  (forall w : world,
     let '(r, l, _) :=
       last_1000_loop (order_by_id_desc t1) 0 (order_by_id_desc t1)
                      (Locals 0 0 None) w in
     missing l = 0%nat /\ (forall u, r = inr u -> checked l = 3%nat)) /\
  (forall w : world,
     fst (last_1000 (table_db t1) (table_db t1) "t" w) = inr tt ->
     out (snd (last_1000 (table_db t1) (table_db t1) "t" w))
       = out w ++ [PrintOK 3 0]).
Proof.
  apply (last_1000_index_error_unreachable (table_db t1) (table_db t1) "t"
           (id_rows [14; 5; 1]) [VInt 14; VInt 5; VInt 1]
           (order_by_id_desc t1) (order_by_id_desc t1));
    reflexivity.
Defined.

(** The run on [t1] against itself does complete. *)
Example last_1000_self_t1 :
  last_1000 (table_db t1) (table_db t1) "t" fresh =
    (inr tt, snd (print (PrintOK 3 0) (fetched "t" [VInt 14; VInt 5; VInt 1] fresh))).
Proof. reflexivity. Qed.

(** ** The lag *)

Section LagProperties.

Variables primary replica : connection.
Variable table : string.

Variables rs1 rs2 : list row.
Hypothesis primary_max : primary (SelectMaxUpdatedAt table) = inr rs1.
Hypothesis replica_max : replica (SelectMaxUpdatedAt table) = inr rs2.

Lemma lag_run (w : world) :
  lag primary replica table w =
    let s := sent w ++ lag_queries table in
    match opt_item0 (head rs1) with
    | inl e => (inl e, World (tail rs1) rs2 s (out w))
    | inr v1 =>
        match opt_item0 (head rs2) with
        | inl e => (inl e, World (tail rs1) (tail rs2) s (out w))
        | inr v2 => (py_sub v1 v2, World (tail rs1) (tail rs2) s (out w))
        end
    end.
Proof.
  unfold lag, bind, execute, fetchone, lag_queries. simpl.
  rewrite primary_max. simpl. rewrite replica_max. simpl.
  rewrite <- !app_assoc. simpl.
  destruct rs1 as [|x xs]; simpl; [reflexivity|].
  destruct (item0 x) as [e|v1]; simpl; [reflexivity|].
  destruct rs2 as [|y ys]; simpl; [reflexivity|].
  destruct (item0 y) as [e|v2]; simpl; [reflexivity|].
  destruct (py_sub v1 v2); reflexivity.
Qed.

(** C6: with [a] the maximum the primary answers and [b] the one the
    replica answers, [lag] returns the difference [a - b] as it is; when
    the primary is behind ([a < b]) the value returned is negative. *)
Theorem lag_is_difference
    (k1 k2 : string) (a b : Z) (cols1 cols2 : row) (more1 more2 : list row)
    (w : world) :
  rs1 = ((k1, VDatetime a) :: cols1) :: more1 ->
  rs2 = ((k2, VDatetime b) :: cols2) :: more2 ->
  lag primary replica table w =
    (inr (VTimedelta (a - b)),
     World more1 more2 (sent w ++ lag_queries table) (out w)) /\
  (a < b ->
   exists d, fst (lag primary replica table w) = inr (VTimedelta d) /\ d < 0).
Proof.
  intros E1 E2.
  assert (H : lag primary replica table w =
              (inr (VTimedelta (a - b)),
               World more1 more2 (sent w ++ lag_queries table) (out w))).
  { rewrite lag_run, E1, E2. reflexivity. }
  split; [exact H|].
  intros Hlt. exists (a - b). rewrite H. split; [reflexivity|lia].
Qed.

(** When either maximum is NULL the subtraction raises TypeError. *)
Lemma lag_none_raises (k1 k2 : string) (v1 v2 : value) (w : world) :
  rs1 = [[(k1, v1)]] ->
  rs2 = [[(k2, v2)]] ->
  v1 = VNone \/ v2 = VNone ->
  fst (lag primary replica table w) = inl TypeError.
Proof.
  intros E1 E2 Hnone. rewrite lag_run, E1, E2. simpl.
  destruct Hnone as [-> | ->]; [reflexivity|].
  destruct v1; reflexivity.
Qed.

End LagProperties.

(** Primary [t3] was last modified at 10, replica [t1] at 30. *)
Lemma lag_is_difference_witness :
  lag (table_db t3) (table_db t1) "t" fresh =
    (inr (VTimedelta (10 - 30)),
     World [] [] (sent fresh ++ lag_queries "t") (out fresh)) /\
  (10 < 30 ->
   exists d, fst (lag (table_db t3) (table_db t1) "t" fresh)
             = inr (VTimedelta d) /\ d < 0).
Proof.
  apply (lag_is_difference (table_db t3) (table_db t1) "t"
           [[("max"%string, VDatetime 10)]] [[("max"%string, VDatetime 30)]]
           eq_refl eq_refl "max" "max" 10 30 [] [] [] [] fresh);
    reflexivity.
Defined.

(** C7: on a table without rows, or without modification times, the
    maximum is NULL and [lag] raises TypeError instead of returning a
    value; [main] has no handler around it. *)
Theorem lag_undefined_raises :
  fst (lag (table_db []) (table_db t1) "t" fresh) = inl TypeError /\
  fst (lag (table_db t1) (table_db []) "t" fresh) = inl TypeError /\
  fst (lag (table_db t_null) (table_db t_null) "t" fresh) = inl TypeError.
Proof. repeat split; reflexivity. Qed.

(** ** The sampling loop *)

Section SamplingProperties.

Variable float_pow : spec_float -> spec_float -> spec_float.
Variables primary replica : connection.
Variable table : string.

Lemma sample_loop_step (i : Z) (rest : list Z) (ck ms : nat) (w : world) :
  sample_loop float_pow primary replica table (i :: rest) ck ms w =
    match sample_id float_pow i with
    | inl e => (inl e, w)
    | inr id_ =>
        match check primary replica table id_ w with
        | (inl e, w') => (inl e, w')
        | (inr None, w') =>
            sample_loop float_pow primary replica table rest ck (S ms)
                        (snd (print Progress w'))
        | (inr (Some false), w') => (inl (Exception (RowsDiffer id_)), w')
        | (inr (Some true), w') =>
            sample_loop float_pow primary replica table rest (S ck) ms
                        (snd (print Progress w'))
        end
    end.
Proof.
  simpl. unfold bind at 1.
  destruct (sample_id float_pow i) as [e|id_]; simpl; [reflexivity|].
  unfold bind at 1.
  destruct (check primary replica table id_ w) as [[e|[[|]|]] w'];
    reflexivity.
Qed.

(** A [check] that returns has sent its two statements, and only those. *)
Lemma check_sent (id_ : Z) (w : world) (result : option bool) :
  fst (check primary replica table id_ w) = inr result ->
  sent (snd (check primary replica table id_ w))
    = sent w ++ point_queries table id_.
Proof.
  destruct (primary (SelectById table id_)) as [e1|rs1] eqn:E1.
  - unfold check, bind, execute. simpl. rewrite E1. discriminate.
  - destruct (replica (SelectById table id_)) as [e2|rs2] eqn:E2.
    + unfold check, bind, execute. simpl. rewrite E1. simpl. rewrite E2.
      discriminate.
    + intros _. rewrite (check_run _ _ _ _ _ _ w E1 E2). cbv zeta.
      destruct (head rs1), (head rs2); try reflexivity.
      destruct (py_dict_ne (dict r) (dict r0)); reflexivity.
Qed.


(** The ids the loop has probed when it is through [todo]. *)
Lemma sample_loop_no_mismatch_sent (todo : list Z) :
  forall (ck ms : nat) (w : world) (counts : nat * nat),
    fst (sample_loop float_pow primary replica table todo ck ms w)
      = inr counts ->
    exists ids : list Z,
      Forall2 (fun i id_ => sample_id float_pow i = inr id_) todo ids /\
      sent (snd (sample_loop float_pow primary replica table todo ck ms w))
        = sent w ++ concat (map (point_queries table) ids) /\
      (fst counts + snd counts = ck + ms + length todo)%nat.
Proof.
  induction todo as [|i rest IH]; intros ck ms w counts H.
  - exists []. simpl in *. injection H as <-. simpl.
    rewrite app_nil_r. repeat split; [constructor|lia].
  - rewrite sample_loop_step in H |- *.
    destruct (sample_id float_pow i) as [e|id_] eqn:Hid; [discriminate|].
    pose proof (check_sent id_ w) as Hsent.
    destruct (check primary replica table id_ w) as [[e|[[|]|]] w'];
      try discriminate; simpl in Hsent;
      specialize (Hsent _ eq_refl);
      destruct (IH _ _ _ _ H) as (ids & Hids & Hs & Hc);
      exists (id_ :: ids); (split; [constructor; assumption|]);
      (split; [rewrite Hs; simpl; rewrite Hsent, <- app_assoc; reflexivity
              |simpl; lia]).
Qed.

End SamplingProperties.

(** Index 0 gives id 0, on neither side; index 1 gives id 1, equal on both. *)
Example sampling_counts :
  fst (sample_loop pow_samples (table_db t1) (table_db t2) "t" [0; 1] 0 0 fresh)
    = inr (1%nat, 1%nat).
Proof. reflexivity. Qed.

(** ** Rows as dictionaries and as tuples *)

Lemma dict_snoc (r : row) (kv : string * value) :
  dict (r ++ [kv]) = <[kv.1 := kv.2]> (dict r).
Proof. unfold dict. rewrite foldl_app. reflexivity. Qed.

Lemma dict_list_to_map (r : row) :
  dict r = list_to_map (reverse r).
Proof.
  induction r as [|kv r IH] using rev_ind; [reflexivity|].
  rewrite dict_snoc, reverse_app. simpl. rewrite IH. reflexivity.
Qed.

Lemma NoDup_keys_reverse (r : row) : NoDup r.*1 -> NoDup (reverse r).*1.
Proof. intros H. rewrite fmap_reverse, reverse_Permutation. exact H. Qed.


Lemma dict_lookup_inv (r : row) (k : string) (v : value) :
  dict r !! k = Some v -> (k, v) ∈ r.
Proof.
  rewrite dict_list_to_map. intros H.
  apply elem_of_list_to_map_2 in H. rewrite elem_of_reverse in H. exact H.
Qed.


(** The dictionary of a row does not keep the order of the columns. *)
Lemma dict_ignores_column_order (a b : row) :
  NoDup a.*1 -> a ≡ₚ b -> dict a = dict b.
Proof.
  intros Hnd Hp. rewrite !dict_list_to_map.
  apply list_to_map_proper.
  - apply NoDup_keys_reverse. exact Hnd.
  - rewrite !reverse_Permutation. exact Hp.
Qed.

Lemma tuple_fmap (r : row) : Legacy.tuple r = r.*2.
Proof.
  unfold Legacy.tuple. induction r as [|kv r IH]; [reflexivity|].
  simpl. rewrite IH. reflexivity.
Qed.

(** *** Python's equality on dictionaries and tuples *)

Lemma py_dict_eq_spec (d1 d2 : gmap string value) :
  py_dict_eq d1 d2 = true <->
  size d1 = size d2 /\
  forall (k : string) (v : value),
    d1 !! k = Some v -> exists v', d2 !! k = Some v' /\ py_eq v v' = true.
Proof.
  unfold py_dict_eq. rewrite andb_true_iff, Nat.eqb_eq, forallb_forall.
  split; intros [Hs Hall]; (split; [exact Hs|]).
  - intros k v Hk.
    specialize (Hall (k, v)). simpl in Hall.
    destruct (d2 !! k) as [v'|].
    + exists v'. split; [reflexivity|]. apply Hall.
      apply list_elem_of_In, elem_of_map_to_list. exact Hk.
    + assert (false = true); [|discriminate]. apply Hall.
      apply list_elem_of_In, elem_of_map_to_list. exact Hk.
  - intros [k v] Hin. simpl.
    apply list_elem_of_In, elem_of_map_to_list in Hin.
    destruct (Hall k v Hin) as (v' & -> & Hv). exact Hv.
Qed.

Lemma py_tuple_eq_spec (t1 t2 : list value) :
  py_tuple_eq t1 t2 = true <-> Forall2 (fun x y => py_eq x y = true) t1 t2.
Proof.
  revert t2. induction t1 as [|x t1 IH]; intros [|y t2]; simpl.
  - split; [constructor|reflexivity].
  - split; [discriminate|inversion 1].
  - split; [discriminate|inversion 1].
  - rewrite andb_true_iff, IH. split.
    + intros [Hx Ht]. constructor; assumption.
    + inversion 1; subst. split; assumption.
Qed.

(** A dictionary whose values are all equal to themselves is equal to
    itself. *)
Lemma dict_self_equal (r : row) :
  self_equal_row r -> py_dict_ne (dict r) (dict r) = false.
Proof.
  intros Hr. unfold py_dict_ne. apply negb_false_iff, py_dict_eq_spec.
  split; [reflexivity|]. intros k v Hk. exists v. split; [exact Hk|].
  apply dict_lookup_inv in Hk.
  unfold self_equal_row in Hr. rewrite Forall_forall in Hr. apply Hr.
  apply list_elem_of_fmap. exists (k, v). split; [reflexivity|exact Hk].
Qed.

Lemma tuple_self_equal (r : row) :
  self_equal_row r -> py_tuple_eq (Legacy.tuple r) (Legacy.tuple r) = true.
Proof.
  intros Hr. apply py_tuple_eq_spec. rewrite tuple_fmap.
  unfold self_equal_row in Hr.
  induction Hr as [|v vs Hv Hvs IH]; constructor; assumption.
Qed.


(** ** Comparing a database with itself *)

Lemma items0_error (rs : list row) (e : exn) :
  items0 rs = inl e -> e = IndexError.
Proof.
  induction rs as [|r rs IH]; simpl; [discriminate|].
  destruct r as [|[k v] cols]; simpl.
  - intros [= <-]. reflexivity.
  - destruct (items0 rs); [intros [= <-]; apply IH; reflexivity|discriminate].
Qed.

Lemma Forall2_dict_refl (rs : list row) :
  Forall self_equal_row rs ->
  Forall2 (fun x y : row => py_dict_ne (dict x) (dict y) = false) rs rs.
Proof.
  induction 1 as [|r rs Hr Hrs IH]; [constructor 1|].
  constructor 2; [apply dict_self_equal; exact Hr|exact IH].
Qed.

(** *** The reference database keeps rows equal to themselves *)

Lemma insert_desc_Forall (P : row -> Prop) (r : row) (rs : list row) :
  P r -> Forall P rs -> Forall P (insert_desc r rs).
Proof.
  intros Hr. induction 1 as [|x xs Hx Hxs IH]; simpl.
  - constructor; [exact Hr|constructor].
  - destruct (row_id x <=? row_id r).
    + constructor; [exact Hr|]. constructor; assumption.
    + constructor; assumption.
Qed.

Lemma order_by_id_desc_Forall (P : row -> Prop) (rs : list row) :
  Forall P rs -> Forall P (order_by_id_desc rs).
Proof.
  unfold order_by_id_desc. induction 1 as [|x xs Hx Hxs IH]; simpl.
  - constructor.
  - apply insert_desc_Forall; assumption.
Qed.

Lemma filter_Forall (P : row -> Prop) (Q : row -> Prop)
      `{forall r, Decision (Q r)} (rs : list row) :
  Forall P rs -> Forall P (filter Q rs).
Proof.
  rewrite !Forall_forall. intros H0 x Hx.
  apply list_elem_of_filter in Hx as [_ Hx]. apply H0. exact Hx.
Qed.

Lemma max_updated_at_self_equal (rs : list row) :
  self_equal (max_updated_at rs).
Proof.
  unfold max_updated_at.
  assert (Hgen : forall acc, self_equal acc ->
            self_equal (foldl (fun acc r =>
              match dict r !! "updated_at"%string, acc with
              | Some (VDatetime t), VDatetime m => VDatetime (Z.max t m)
              | Some (VDatetime t), _ => VDatetime t
              | _, _ => acc
              end) acc rs)).
  { induction rs as [|r rs IH]; intros acc Hacc; [exact Hacc|].
    simpl. apply IH.
    destruct (dict r !! "updated_at"%string) as [[]|]; try exact Hacc;
      destruct acc; try exact Hacc;
      unfold self_equal; simpl; apply bool_decide_eq_true; reflexivity. }
  apply Hgen. unfold self_equal. reflexivity.
Qed.

Lemma table_db_self_equal (rows : list row) :
  Forall self_equal_row rows -> self_equal_db (table_db rows).
Proof.
  intros Hrows q rs. destruct q as [t i|t|t ids|t]; simpl.
  - intros [= <-]. apply Forall_take. apply filter_Forall. exact Hrows.
  - intros [= <-]. apply Forall_fmap, Forall_forall. intros r _.
    unfold self_equal_row. simpl. constructor; [|constructor].
    unfold self_equal. simpl. apply bool_decide_eq_true. reflexivity.
  - destruct ids as [|i ids]; [discriminate|].
    intros [= <-]. apply Forall_take, order_by_id_desc_Forall, filter_Forall.
    exact Hrows.
  - intros [= <-]. constructor; [|constructor].
    unfold self_equal_row. simpl. constructor; [|constructor].
    apply max_updated_at_self_equal.
Qed.

Lemma t1_self_equal : Forall self_equal_row t1.
Proof. repeat constructor. Qed.

Section SelfComparison.

Variable float_pow : spec_float -> spec_float -> spec_float.
Variable d : connection.
Variable table : string.
Hypothesis d_self_equal : self_equal_db d.

Lemma sample_id_error (i : Z) (e : exn) :
  sample_id float_pow i = inl e -> e = OverflowError \/ e = ValueError.
Proof.
  unfold sample_id, _func, float_of_int.
  destruct (binary_normalize prec emax i 0 false);
    try (intros [= <-]; auto);
    match goal with
    | |- context [py_round ?x] => destruct x; simpl; intros [= <-]; auto
    end.
Qed.

Lemma check_self (id_ : Z) (w : world) :
  match d (SelectById table id_) with
  | inl e => fst (check d d table id_ w) = inl (DatabaseError e)
  | inr [] => fst (check d d table id_ w) = inr None
  | inr (_ :: _) => fst (check d d table id_ w) = inr (Some true)
  end.
Proof.
  destruct (d (SelectById table id_)) as [e|rs] eqn:E.
  - unfold check, bind, execute. simpl. rewrite E. reflexivity.
  - rewrite (check_run _ _ _ _ _ _ w E E). cbv zeta.
    destruct rs as [|a rs]; simpl; [reflexivity|].
    rewrite dict_self_equal; [reflexivity|].
    apply d_self_equal in E. inversion E; assumption.
Qed.

Lemma sample_loop_self (todo : list Z) :
  forall (ck ms : nat) (w : world) (m : message),
    fst (sample_loop float_pow d d table todo ck ms w) ≠ inl (Exception m).
Proof.
  induction todo as [|i rest IH]; intros ck ms w m; [discriminate|].
  rewrite sample_loop_step.
  destruct (sample_id float_pow i) as [e|id_] eqn:Hid.
  - apply sample_id_error in Hid. simpl. destruct Hid as [-> | ->]; discriminate.
  - pose proof (check_self id_ w) as Hc.
    destruct (check d d table id_ w) as [r w']. simpl in Hc.
    destruct (d (SelectById table id_)) as [e|[|a rs]]; subst r.
    + discriminate.
    + apply IH.
    + apply IH.
Qed.

Lemma last_1000_self_run (w : world) (available : list row)
      (ids : list value) (rs : list row) :
  d (SelectLatestIds table) = inr available ->
  items0 available = inr ids ->
  d (SelectByIds table ids) = inr rs ->
  last_1000 d d table w =
    (inr tt, snd (print (PrintOK (length rs) 0) (fetched table ids w))).
Proof.
  intros H1 H2 H3.
  rewrite (last_1000_run d d table available ids rs rs H1 H2 H3 H3).
  destruct (decide (length rs ≠ length rs)) as [n|_]; [contradiction|].
  destruct (last_1000_loop_all_equal rs rs
              (Forall2_dict_refl rs (d_self_equal _ _ H3)) []
              (Locals 0 0 None) (fetched table ids w)) as [r' Hr'].
  simpl in Hr'. rewrite Hr'. reflexivity.
Qed.

Lemma last_1000_self_no_exception (w : world) (m : message) :
  fst (last_1000 d d table w) ≠ inl (Exception m).
Proof.
  destruct (d (SelectLatestIds table)) as [e|available] eqn:H1.
  { unfold last_1000, bind, execute. simpl. rewrite H1. discriminate. }
  destruct (items0 available) as [e|ids] eqn:H2.
  { unfold last_1000, bind, execute, fetchall. simpl. rewrite H1. simpl.
    rewrite H2. simpl. apply items0_error in H2. subst e. discriminate. }
  destruct (d (SelectByIds table ids)) as [e|rs] eqn:H3.
  { unfold last_1000, bind, execute, fetchall. simpl. rewrite H1. simpl.
    rewrite H2. simpl. rewrite H3. discriminate. }
  rewrite (last_1000_self_run w _ _ _ H1 H2 H3). discriminate.
Qed.

(** C8 (as the code has it): when primary and replica are the same
    database and every value it returns is equal to itself (no NaN), a
    sampled [check] answers [True] (Match) when the id has a row and [None]
    (Absent) when it has none, never [False]; the sampling loop and
    [last_1000] raise no error of the auditor's; [last_1000] completes with
    every fetched row checked and none missing as soon as its statements
    execute; and [lag] is a zero duration as soon as the maximum is a
    time. *)
Theorem self_comparison :
  (forall (id_ : Z) (w : world) (rs : list row),
     d (SelectById table id_) = inr rs ->
     fst (check d d table id_ w)
       = inr (match rs with [] => None | _ :: _ => Some true end)) /\
  (forall (todo : list Z) (ck ms : nat) (w : world) (m : message),
     fst (sample_loop float_pow d d table todo ck ms w) ≠ inl (Exception m)) /\
  (forall (w : world) (m : message),
     fst (last_1000 d d table w) ≠ inl (Exception m)) /\
  (forall (w : world) (available : list row) (ids : list value) (rs : list row),
     d (SelectLatestIds table) = inr available ->
     items0 available = inr ids ->
     d (SelectByIds table ids) = inr rs ->
     last_1000 d d table w =
       (inr tt, snd (print (PrintOK (length rs) 0) (fetched table ids w)))) /\
  (forall (w : world) (k : string) (a : Z) (cols : row) (more : list row),
     d (SelectMaxUpdatedAt table) = inr (((k, VDatetime a) :: cols) :: more) ->
     fst (lag d d table w) = inr (VTimedelta 0)).
Proof.
  split; [|split; [|split; [|split]]].
  - intros id_ w rs E. pose proof (check_self id_ w) as H.
    rewrite E in H. destruct rs; exact H.
  - intros todo ck ms w m. apply sample_loop_self.
  - intros w m. apply last_1000_self_no_exception.
  - intros w available ids rs. apply last_1000_self_run.
  - intros w k a cols more E.
    rewrite (lag_run d d table _ _ E E w). simpl.
    rewrite Z.sub_diag. reflexivity.
Qed.

End SelfComparison.

(** The database [t1] against itself: id 5 has a row, the three newest
    rows pass, and the lag is zero. *)
Lemma self_comparison_witness :
  fst (check (table_db t1) (table_db t1) "t" 5 fresh) = inr (Some true) /\
  last_1000 (table_db t1) (table_db t1) "t" fresh =
    (inr tt, snd (print (PrintOK 3 0)
                    (fetched "t" [VInt 14; VInt 5; VInt 1] fresh))) /\
  fst (lag (table_db t1) (table_db t1) "t" fresh) = inr (VTimedelta 0).
Proof.
  destruct (self_comparison pow_samples (table_db t1) "t"
              (table_db_self_equal t1 t1_self_equal))
    as (Hcheck & _ & _ & Hrecent & Hlag).
  split; [|split].
  - apply (Hcheck 5 fresh [mk_row 5 "b" 30]). reflexivity.
  - apply (Hrecent fresh (id_rows [14; 5; 1]) [VInt 14; VInt 5; VInt 1]
             (order_by_id_desc t1)); reflexivity.
  - apply (Hlag fresh "max"%string 30 [] []). reflexivity.
Defined.

(** The database [t1] against itself: index 0 is sampled as id 0, which has
    no row, and [check] answers [None] (Absent), not [True].  A table with
    a NaN against itself: the row of id 1 is there on both sides and
    [check] answers [False], because a NaN is not equal to itself.  An
    empty table against itself: [lag] raises TypeError instead of a
    zero. *)
Lemma self_comparison_not_all_match :
  sample_id pow_samples 0 = inr 0 /\
  fst (check (table_db t1) (table_db t1) "t" 0 fresh) = inr None /\
  classify None <> Match /\
  sample_id pow_samples 1 = inr 1 /\
  fst (check (table_db t_nan) (table_db t_nan) "t" 1 fresh) = inr (Some false) /\
  classify (Some false) <> Match /\
  fst (lag (table_db []) (table_db []) "t" fresh) = inl TypeError.
Proof. repeat split; try reflexivity; discriminate. Qed.

(** ** Running the audit twice *)

(** After [new_cursors] the cursors of the world before play no part. *)
Lemma new_cursors_then {A} (k : unit -> M A) (w : world) :
  frames (k tt) ->
  bind new_cursors k w =
    let '(r, w') := bind new_cursors k fresh in
    (r, World (c1 w') (c2 w') (sent w ++ sent w') (out w ++ out w')).
Proof.
  intros Hk. unfold bind, new_cursors. simpl.
  rewrite (Hk (World [] [] (sent w) (out w))). simpl. reflexivity.
Qed.

Section Reproducibility.

Variable float_pow : spec_float -> spec_float -> spec_float.
Variables primary replica : connection.
Variable table : string.

(** [main] starts from new cursors and only appends to the logs: a run
    in any world is the run in the fresh world, after what was there. *)
Lemma main_from_fresh (w : world) :
  main float_pow primary replica table w =
    let '(r, w') := main float_pow primary replica table fresh in
    (r, World (c1 w') (c2 w') (sent w ++ sent w') (out w ++ out w')).
Proof.
  unfold main. apply new_cursors_then.
  apply frames_bind; [apply frames_sample_loop|intros counts].
  apply frames_bind; [apply frames_print|intros _].
  apply frames_bind; [apply frames_last_1000|intros _].
  apply frames_bind; [apply frames_lag|intros l].
  apply frames_print.
Qed.

(** [main] has no handler: when sampling and the recency check pass, an
    error of [lag] is the outcome of the run. *)
Lemma main_lag_error (w w1 w2 w3 : world) (counts : nat * nat) (e : exn) :
  sample_loop float_pow primary replica table (range ROWS) 0 0
              (World [] [] (sent w) (out w)) = (inr counts, w1) ->
  last_1000 primary replica table
            (snd (print (PrintOK (fst counts) (snd counts)) w1)) = (inr tt, w2) ->
  lag primary replica table w2 = (inl e, w3) ->
  main float_pow primary replica table w = (inl e, w3).
Proof.
  intros H1 H2 H3. unfold main, bind, new_cursors.
  rewrite H1. unfold print in *. cbn [snd] in H2. rewrite H2, H3.
  reflexivity.
Qed.

(** C9: two audits in a row, the second in the world the first left,
    against databases that answer as functions of the statement: the
    verdicts are the same, and the second run sends the same statements
    and prints the same lines (the counts among them) as the first. *)
Theorem main_reproducible (w0 : world) :
  let run1 := main float_pow primary replica table w0 in
  let run2 := main float_pow primary replica table (snd run1) in
  fst run1 = fst run2 /\
  exists (qs : list (side * query)) (os : list output),
    sent (snd run1) = sent w0 ++ qs /\
    sent (snd run2) = sent (snd run1) ++ qs /\
    out (snd run1) = out w0 ++ os /\
    out (snd run2) = out (snd run1) ++ os.
Proof.
  cbv zeta.
  rewrite (main_from_fresh (snd (main float_pow primary replica table w0))).
  rewrite (main_from_fresh w0).
  destruct (main float_pow primary replica table fresh) as [r w'].
  simpl. split; [reflexivity|].
  exists (sent w'), (out w'). repeat split; reflexivity.
Qed.

End Reproducibility.

(** ** The sample generator *)

Lemma round_half_even_close (m : positive) (e : Z) :
  (Rabs (IZR (round_half_even m e) - SF2R (S754_finite false m e)) <= 1/2)%R.
Proof.
  unfold round_half_even, SF2R. simpl.
  destruct (0 <=? e) eqn:He.
  - rewrite Rminus_diag. rewrite Rabs_R0. lra.
  - apply Z.leb_gt in He.
    set (d := 2 ^ (- e)).
    assert (Hd : 0 < d) by (apply Z.pow_pos_nonneg; lia).
    pose proof (Z.div_mod (Z.pos m) d ltac:(lia)) as Hdm.
    pose proof (Z.mod_pos_bound (Z.pos m) d Hd) as Hr.
    set (q := Z.pos m / d) in *. set (r := Z.pos m mod d) in *.
    assert (HdR : (0 < IZR d)%R) by (apply IZR_lt; exact Hd).
    assert (Hval : (IZR (Z.pos m) / IZR d = IZR q + IZR r / IZR d)%R).
    { rewrite Hdm. rewrite plus_IZR, mult_IZR. field. lra. }
    rewrite Hval.
    assert (Hr0 : (0 <= IZR r / IZR d)%R).
    { apply Rmult_le_pos; [apply IZR_le; lia|]. left. apply Rinv_0_lt_compat. exact HdR. }
    assert (Hr1 : forall c : R, (2 * IZR r <= c * IZR d -> 2 * (IZR r / IZR d) <= c)%R).
    { intros c H. unfold Rdiv. 
      apply Rmult_le_reg_r with (IZR d); [exact HdR|].
      replace (2 * (IZR r * / IZR d) * IZR d)%R with (2 * IZR r)%R by (field; lra).
      exact H. }
    assert (Hr2 : forall c : R, (c * IZR d <= 2 * IZR r -> c <= 2 * (IZR r / IZR d))%R).
    { intros c H. unfold Rdiv. 
      apply Rmult_le_reg_r with (IZR d); [exact HdR|].
      replace (2 * (IZR r * / IZR d) * IZR d)%R with (2 * IZR r)%R by (field; lra).
      exact H. }
    assert (Hr3 : (IZR r / IZR d <= 1)%R).
    { apply Rmult_le_reg_r with (IZR d); [exact HdR|].
      replace (IZR r / IZR d * IZR d)%R with (IZR r) by (field; lra).
      rewrite Rmult_1_l. apply IZR_le. lia. }
    assert (Hr1' : (2 * IZR r <= IZR d -> 2 * (IZR r / IZR d) <= 1)%R).
    { intros H. apply Hr1. lra. }
    assert (Hr2' : (IZR d <= 2 * IZR r -> 1 <= 2 * (IZR r / IZR d))%R).
    { intros H. apply Hr2. lra. }
    clear Hr1 Hr2.
    set (t := (IZR r / IZR d)%R) in *. clearbody t. clearbody d q r.
    destruct (2 * r ?= d) eqn:Hc.
    + apply Z.compare_eq in Hc.
      assert (E : (2 * IZR r = IZR d)%R) by (rewrite <- Hc, mult_IZR; reflexivity).
      specialize (Hr1' ltac:(lra)). specialize (Hr2' ltac:(lra)).
      destruct (Z.even q); [|rewrite plus_IZR]; apply Rabs_le; lra.
    + rewrite Z.compare_lt_iff in Hc.
      assert (E : (2 * IZR r <= IZR d)%R).
      { rewrite <- mult_IZR. apply IZR_le. lia. }
      specialize (Hr1' E).
      apply Rabs_le; lra.
    + rewrite Z.compare_gt_iff in Hc.
      assert (E : (IZR d <= 2 * IZR r)%R).
      { rewrite <- mult_IZR. apply IZR_le. lia. }
      specialize (Hr2' E).
      rewrite plus_IZR. apply Rabs_le; lra.
Qed.

Lemma SF2R_opp (m : positive) (e : Z) :
  SF2R (S754_finite true m e) = (- SF2R (S754_finite false m e))%R.
Proof.
  unfold SF2R. simpl. destruct (0 <=? e).
  - rewrite <- opp_IZR. f_equal; lia.
  - change (Z.neg m) with (- Z.pos m). rewrite opp_IZR. unfold Rdiv. ring.
Qed.

Lemma py_round_close (x : spec_float) :
  is_finite x = true ->
  exists z : Z, py_round x = inr z /\ (Rabs (IZR z - SF2R x) <= 1/2)%R.
Proof.
  destruct x as [s| | |s m e]; cbn [is_finite]; try discriminate; intros _.
  - exists 0. split; [reflexivity|]. simpl. rewrite Rminus_diag, Rabs_R0. lra.
  - exists (cond_Zopp s (round_half_even m e)). split; [reflexivity|].
    pose proof (round_half_even_close m e) as H.
    destruct s; [|exact H].
    rewrite SF2R_opp. unfold cond_Zopp. rewrite opp_IZR.
    replace (- IZR (round_half_even m e) - - SF2R (S754_finite false m e))%R
      with (- (IZR (round_half_even m e) - SF2R (S754_finite false m e)))%R by ring.
    rewrite Rabs_Ropp. exact H.
Qed.

(** The real power grows by at least 2 from one index to the next. *)
Lemma Rpower_ge_1 (x e : R) : (1 <= x -> 0 <= e -> 1 <= Rpower x e)%R.
Proof.
  intros Hx He. rewrite <- (Rpower_O x) by lra.
  apply Rle_Rpower; lra.
Qed.

Lemma Rpower_step (x e : R) :
  (1 <= x -> 2 <= e -> Rpower x e + 2 <= Rpower (x + 1) e)%R.
Proof.
  intros Hx He.
  replace e with (2 + (e - 2))%R by ring.
  rewrite !Rpower_plus.
  change 2%R with (INR 2) at 1 4. rewrite !Rpower_pow by lra.
  assert (Hp : (1 <= Rpower x (e - 2))%R) by (apply Rpower_ge_1; lra).
  assert (Hq : (Rpower x (e - 2) <= Rpower (x + 1) (e - 2))%R)
    by (apply Rle_Rpower_l; lra).
  simpl. nra.
Qed.

Lemma real_pow_gap (i j : Z) (e : R) :
  0 <= i < j -> (2 <= e)%R ->
  (i = 0 /\ (1 <= real_pow j e)%R) \/ (real_pow i e + 2 <= real_pow j e)%R.
Proof.
  intros Hij He. unfold real_pow.
  destruct (Z.eqb_spec j 0) as [->|Hj]; [lia|].
  destruct (Z.eqb_spec i 0) as [->|Hi].
  - left. split; [reflexivity|]. apply Rpower_ge_1; [|lra].
    apply IZR_le. lia.
  - right. assert (H1 : (1 <= IZR i)%R) by (apply IZR_le; lia).
    apply Rle_trans with (Rpower (IZR i + 1) e); [apply Rpower_step; lra|].
    apply Rle_Rpower_l; [lra|]. split; [lra|].
    rewrite <- plus_IZR. apply IZR_le. lia.
Qed.

Lemma exponent_literal : exponent = S754_finite false 5359283556570890 (-51).
Proof. vm_compute. reflexivity. Qed.

Lemma exponent_bounds : (2 + /4 <= SF2R exponent <= 2 + /2)%R.
Proof.
  rewrite exponent_literal. unfold SF2R.
  change (0 <=? -51) with false. cbv iota.
  change (cond_Zopp false (Z.pos 5359283556570890)) with 5359283556570890.
  change (2 ^ (- -51)) with 2251799813685248.
  lra.
Qed.

(** [float(i)] rounds to 53 bits: beyond 2^53 neighbouring indices meet. *)
Lemma sample_id_collision (float_pow : spec_float -> spec_float -> spec_float) :
  sample_id float_pow (2 ^ 53) = sample_id float_pow (2 ^ 53 + 1).
Proof.
  unfold sample_id, _func.
  replace (float_of_int (2 ^ 53 + 1)) with (float_of_int (2 ^ 53))
    by (vm_compute; reflexivity).
  reflexivity.
Qed.

Lemma sample_ids_functional (float_pow : spec_float -> spec_float -> spec_float)
      (todo : list Z) :
  forall ids ids' : list Z,
    Forall2 (fun i id_ => sample_id float_pow i = inr id_) todo ids ->
    Forall2 (fun i id_ => sample_id float_pow i = inr id_) todo ids' ->
    ids = ids'.
Proof.
  induction todo as [|i rest IH]; intros ids ids' H H'.
  - inversion H; inversion H'; reflexivity.
  - inversion H as [|? a ? l Ha Hl]; inversion H' as [|? a' ? l' Ha' Hl']; subst.
    rewrite Ha in Ha'. injection Ha' as ->. f_equal. apply IH; assumption.
Qed.

Lemma Rabs_le_bounds (x a : R) : (Rabs x <= a -> - a <= x <= a)%R.
Proof. unfold Rabs. destruct (Rcase_abs x); lra. Qed.

Lemma accurate_increasing (float_pow : spec_float -> spec_float -> spec_float) (N : Z) :
  accurate float_pow N -> generates_increasing float_pow N.
Proof.
  intros Hacc i j Hij Hj.
  destruct (Hacc i ltac:(lia)) as (x & Hx & Fx & Ax).
  destruct (Hacc j ltac:(lia)) as (y & Hy & Fy & Ay).
  destruct (py_round_close x Fx) as (a & Ha & Ca).
  destruct (py_round_close y Fy) as (b & Hb & Cb).
  exists a, b. unfold sample_id. rewrite Hx, Hy. split; [exact Ha|]. split; [exact Hb|].
  pose proof exponent_bounds as He.
  apply Rabs_def2 in Ax. apply Rabs_def2 in Ay.
  apply Rabs_le_bounds in Ca. apply Rabs_le_bounds in Cb.
  destruct (real_pow_gap i j (SF2R exponent) Hij ltac:(lra)) as [[-> H1]|Hgap].
  - unfold real_pow in Ax. simpl in Ax.
    assert (La : (IZR a < 1)%R) by lra.
    assert (Lb : (0 < IZR b)%R) by lra.
    apply lt_IZR in La, Lb. lia.
  - apply lt_IZR. lra.
Qed.

Lemma Rpower_1_l (e : R) : Rpower 1 e = 1%R.
Proof. unfold Rpower. rewrite ln_1, Rmult_0_r. apply exp_0. Qed.

Lemma Rpower_2_quarter : (1.18 < Rpower 2 (/4))%R.
Proof.
  set (y := Rpower 2 (/4)).
  assert (Hy : (0 < y)%R) by apply exp_pos.
  assert (H4 : (y * y * y * y = 2)%R).
  { assert (H : Rpower y (INR 4) = 2%R).
    { unfold y. rewrite Rpower_mult.
      replace (/ 4 * INR 4)%R with 1%R by (simpl; field).
      apply Rpower_1. lra. }
    rewrite Rpower_pow in H by exact Hy. simpl in H. lra. }
  destruct (Rlt_le_dec 1.18 y) as [|Hle]; [assumption|exfalso].
  assert (H2 : (y * y <= 1.18 * 1.18)%R) by nra.
  assert (H3 : ((y * y) * (y * y) <= (1.18 * 1.18) * (1.18 * 1.18))%R) by nra.
  lra.
Qed.

Lemma Rpower_2_half : (Rpower 2 (/2) < 1.42)%R.
Proof.
  set (z := Rpower 2 (/2)).
  assert (Hz : (0 < z)%R) by apply exp_pos.
  assert (H2 : (z * z = 2)%R).
  { assert (H : Rpower z (INR 2) = 2%R).
    { unfold z. rewrite Rpower_mult.
      replace (/ 2 * INR 2)%R with 1%R by (simpl; field).
      apply Rpower_1. lra. }
    rewrite Rpower_pow in H by exact Hz. simpl in H. lra. }
  destruct (Rlt_le_dec z 1.42) as [|Hle]; [assumption|exfalso].
  nra.
Qed.

Lemma Rpower_2_2 : Rpower 2 2 = 4%R.
Proof.
  assert (H : Rpower 2 (INR 2) = (2 ^ 2)%R) by (apply Rpower_pow; lra).
  replace (INR 2) with 2%R in H by (simpl; lra).
  rewrite H. simpl. lra.
Qed.

Lemma Rpower_2_exponent : (4.72 < Rpower 2 (SF2R exponent) < 5.68)%R.
Proof.
  pose proof exponent_bounds as He.
  set (t := SF2R exponent) in *. clearbody t.
  assert (E : Rpower 2 t = (4 * Rpower 2 (t - 2))%R).
  { rewrite <- Rpower_2_2, <- Rpower_plus. f_equal. ring. }
  assert (Hlo : (Rpower 2 (/4) <= Rpower 2 (t - 2))%R)
    by (apply Rle_Rpower; lra).
  assert (Hhi : (Rpower 2 (t - 2) <= Rpower 2 (/2))%R)
    by (apply Rle_Rpower; lra).
  pose proof Rpower_2_quarter. pose proof Rpower_2_half.
  rewrite E. lra.
Qed.

Lemma pow_samples_accurate : accurate pow_samples 3.
Proof.
  intros i Hi.
  assert (Hcases : i = 0 \/ i = 1 \/ i = 2) by lia.
  destruct Hcases as [-> | [-> | ->]].
  - exists (S754_zero false). split; [vm_compute; reflexivity|].
    split; [reflexivity|].
    unfold real_pow, SF2R. simpl. rewrite Rminus_diag, Rabs_R0. lra.
  - exists (S754_finite false 4503599627370496 (-52)).
    split; [vm_compute; reflexivity|]. split; [reflexivity|].
    unfold real_pow, SF2R.
    change (1 =? 0) with false. change (0 <=? -52) with false. cbv iota.
    rewrite Rpower_1_l.
    change (cond_Zopp false (Z.pos 4503599627370496)) with 4503599627370496.
    change (2 ^ (- -52)) with 4503599627370496.
    apply Rabs_def1; lra.
  - exists (S754_finite false 5860722695249921 (-50)).
    split; [vm_compute; reflexivity|]. split; [reflexivity|].
    pose proof Rpower_2_exponent as Hp.
    unfold real_pow.
    change (2 =? 0) with false. cbv iota.
    unfold SF2R at 1.
    change (0 <=? -50) with false. cbv iota.
    change (cond_Zopp false (Z.pos 5860722695249921)) with 5860722695249921.
    change (2 ^ (- -50)) with 1125899906842624.
    apply Rabs_def1; lra.
Qed.

(** What can be said of the generator without fixing the C library's
    [pow]: for every [N] below which the floating-point power is accurate,
    the generator gives an id for each index in [0, N) and the ids are
    strictly increasing; and two sampling runs over [range N] that
    complete, against any databases and from any worlds, have probed the
    same sequence of ids.  Whether [pow] is accurate below [ROWS] is a
    property of the C library, which this development does not model. *)
Lemma sample_ids_increasing_when_accurate
    (float_pow : spec_float -> spec_float -> spec_float) (N : Z) :
  accurate float_pow N ->
  generates_increasing float_pow N /\
  (forall (P R P' R' : connection) (t t' : string)
          (ck ms ck' ms' : nat) (w w' : world) (counts counts' : nat * nat),
     fst (sample_loop float_pow P R t (range N) ck ms w) = inr counts ->
     fst (sample_loop float_pow P' R' t' (range N) ck' ms' w') = inr counts' ->
     exists ids : list Z,
       Forall2 (fun i id_ => sample_id float_pow i = inr id_) (range N) ids /\
       sent (snd (sample_loop float_pow P R t (range N) ck ms w))
         = sent w ++ concat (map (point_queries t) ids) /\
       sent (snd (sample_loop float_pow P' R' t' (range N) ck' ms' w'))
         = sent w' ++ concat (map (point_queries t') ids)).
Proof.
  intros Hacc. split; [apply accurate_increasing; exact Hacc|].
  intros P R P' R' t t' ck ms ck' ms' w w' counts counts' H H'.
  destruct (sample_loop_no_mismatch_sent float_pow P R t (range N)
              ck ms w counts H) as (ids & Hids & Hs & _).
  destruct (sample_loop_no_mismatch_sent float_pow P' R' t' (range N)
              ck' ms' w' counts' H') as (ids' & Hids' & Hs' & _).
  rewrite <- (sample_ids_functional float_pow (range N) ids ids' Hids Hids') in Hs'.
  exists ids. repeat split; assumption.
Qed.

(** The powers of 0, 1 and 2 as the C library gives them: ids 0, 1, 5. *)
Lemma sample_ids_increasing_witness :
  generates_increasing pow_samples 3 /\
  (forall (P R P' R' : connection) (t t' : string)
          (ck ms ck' ms' : nat) (w w' : world) (counts counts' : nat * nat),
     fst (sample_loop pow_samples P R t (range 3) ck ms w) = inr counts ->
     fst (sample_loop pow_samples P' R' t' (range 3) ck' ms' w') = inr counts' ->
     exists ids : list Z,
       Forall2 (fun i id_ => sample_id pow_samples i = inr id_) (range 3) ids /\
       sent (snd (sample_loop pow_samples P R t (range 3) ck ms w))
         = sent w ++ concat (map (point_queries t) ids) /\
       sent (snd (sample_loop pow_samples P' R' t' (range 3) ck' ms' w'))
         = sent w' ++ concat (map (point_queries t') ids)).
Proof.
  apply (sample_ids_increasing_when_accurate pow_samples 3).
  exact pow_samples_accurate.
Defined.

(** No floating-point power makes the ids strictly increasing for every
    [N]: [float(2^53)] and [float(2^53 + 1)] are the same binary64, so the
    indices 2^53 and 2^53 + 1 get the same id (or the same error). *)
Lemma sample_ids_not_increasing_for_every_N :
  ~ exists float_pow : spec_float -> spec_float -> spec_float,
      forall N : Z, 0 < N -> generates_increasing float_pow N.
Proof.
  intros [float_pow H].
  destruct (H (2 ^ 53 + 2) ltac:(lia) (2 ^ 53) (2 ^ 53 + 1) ltac:(lia) ltac:(lia))
    as (a & b & Ha & Hb & Hab).
  rewrite <- sample_id_collision, Ha in Hb.
  injection Hb as ->. lia.
Qed.

(** ** More on [check] *)

Section CheckMore.

Variables primary replica : connection.
Variable table : string.

(** What [check] does in every case, server errors included. *)
Lemma check_cases (id_ : Z) (w : world) :
  check primary replica table id_ w =
    let q := SelectById table id_ in
    match primary q with
    | inl e =>
        (inl (DatabaseError e),
         World (c1 w) (c2 w) (sent w ++ [(Primary, q)]) (out w))
    | inr rs1 =>
        match replica q with
        | inl e =>
            (inl (DatabaseError e),
             World rs1 (c2 w) (sent w ++ point_queries table id_) (out w))
        | inr rs2 =>
            let s := sent w ++ point_queries table id_ in
            match head rs1, head rs2 with
            | Some a, Some b =>
                if py_dict_ne (dict a) (dict b)
                then (inr (Some false),
                      World (tail rs1) (tail rs2) s
                            (out w ++ [PrintRow Primary (dict a);
                                       PrintRow Replica (dict b)]))
                else (inr (Some true), World (tail rs1) (tail rs2) s (out w))
            | _, _ => (inr None, World (tail rs1) (tail rs2) s (out w))
            end
        end
    end.
Proof.
  cbv zeta.
  destruct (primary (SelectById table id_)) as [e1|rs1] eqn:E1.
  - unfold check, bind, execute. simpl. rewrite E1. reflexivity.
  - destruct (replica (SelectById table id_)) as [e2|rs2] eqn:E2.
    + unfold check, bind, execute, point_queries. simpl. rewrite E1. simpl.
      rewrite E2. rewrite <- app_assoc. reflexivity.
    + apply check_run; assumption.
Qed.

Lemma check_fst_fresh (id_ : Z) (w : world) :
  fst (check primary replica table id_ w)
    = fst (check primary replica table id_ fresh).
Proof.
  rewrite !check_cases. cbv zeta.
  destruct (primary (SelectById table id_)) as [e1|rs1]; [reflexivity|].
  destruct (replica (SelectById table id_)) as [e2|rs2]; [reflexivity|].
  destruct (head rs1) as [a|], (head rs2) as [b|]; try reflexivity.
  destruct (py_dict_ne (dict a) (dict b)); reflexivity.
Qed.

(** A [check] that does not answer [False] prints nothing. *)
Lemma check_out_pass (id_ : Z) (w : world) (result : option bool) :
  fst (check primary replica table id_ w) = inr result ->
  result ≠ Some false ->
  out (snd (check primary replica table id_ w)) = out w.
Proof.
  rewrite check_cases. cbv zeta.
  destruct (primary (SelectById table id_)) as [e1|rs1]; [discriminate|].
  destruct (replica (SelectById table id_)) as [e2|rs2]; [discriminate|].
  destruct (head rs1) as [a|], (head rs2) as [b|]; try reflexivity.
  destruct (py_dict_ne (dict a) (dict b)); [|reflexivity].
  simpl. intros [= <-] H. contradiction.
Qed.

(** rows left on the cursors by an earlier statement never reach the
    comparison: the answer of [check] (value or error) is the same in every
    world. *)
Theorem check_ignores_earlier_state (id_ : Z) (w w' : world) :
  fst (check primary replica table id_ w)
    = fst (check primary replica table id_ w').
Proof. rewrite (check_fst_fresh id_ w), (check_fst_fresh id_ w'). reflexivity. Qed.

(** When the primary rejects the statement, [check] raises the primary's
    error and nothing has been sent to the replica; when the primary
    answers and the replica rejects it, [check] raises the replica's error
    after both statements, and nothing is printed. *)
Theorem check_stops_at_server_error (id_ : Z) (w : world) :
  (forall msg : string,
     primary (SelectById table id_) = inl msg ->
     check primary replica table id_ w =
       (inl (DatabaseError msg),
        World (c1 w) (c2 w) (sent w ++ [(Primary, SelectById table id_)])
              (out w))) /\
  (forall (rs1 : list row) (msg : string),
     primary (SelectById table id_) = inr rs1 ->
     replica (SelectById table id_) = inl msg ->
     check primary replica table id_ w =
       (inl (DatabaseError msg),
        World rs1 (c2 w) (sent w ++ point_queries table id_) (out w))).
Proof.
  split.
  - intros msg H. rewrite check_cases. cbv zeta. rewrite H. reflexivity.
  - intros rs1 msg H1 H2. rewrite check_cases. cbv zeta. rewrite H1, H2.
    reflexivity.
Qed.

End CheckMore.

Section CheckVersions.

Variables primary replica : connection.
Variable table : string.

Lemma legacy_check_run (id_ : Z) (rs1 rs2 : list row) (w : world) :
  primary (SelectById table id_) = inr rs1 ->
  replica (SelectById table id_) = inr rs2 ->
  Legacy.check primary replica table id_ w =
    (match head rs1, head rs2 with
     | None, None => inr None
     | r1, r2 =>
         if py_fetched_ne (option_map Legacy.tuple r1) (option_map Legacy.tuple r2)
         then inr (Some false) else inr (Some true)
     end,
     World (tail rs1) (tail rs2) (sent w ++ point_queries table id_) (out w)).
Proof.
  intros H1 H2. unfold Legacy.check, bind, execute, fetchone, point_queries.
  simpl. rewrite H1. simpl. rewrite H2. simpl.
  rewrite <- !app_assoc. simpl.
  destruct rs1 as [|a rs1'], rs2 as [|b rs2']; simpl; try reflexivity.
  destruct (py_tuple_eq (Legacy.tuple a) (Legacy.tuple b)); reflexivity.
Qed.

(** [check] does not look at the order of the columns: when the two
    rows hold the same columns (distinct names, values equal to themselves)
    in a different order, the answer is [True]. *)
Theorem check_ignores_column_order
    (id_ : Z) (rs1 rs2 : list row) (a b : row) (w : world) :
  primary (SelectById table id_) = inr rs1 ->
  replica (SelectById table id_) = inr rs2 ->
  head rs1 = Some a -> head rs2 = Some b ->
  NoDup a.*1 -> a ≡ₚ b -> self_equal_row a ->
  fst (check primary replica table id_ w) = inr (Some true).
Proof.
  intros H1 H2 Ha Hb Hnd Hp Hself.
  rewrite (check_run _ _ _ _ _ _ w H1 H2). cbv zeta. rewrite Ha, Hb.
  rewrite <- (dict_ignores_column_order a b Hnd Hp).
  rewrite (dict_self_equal a Hself). reflexivity.
Qed.


End CheckVersions.

(** ** Whole runs of the sampling loop *)

Section SamplingRuns.

Variable float_pow : spec_float -> spec_float -> spec_float.
Variables primary replica : connection.
Variable table : string.

Lemma sample_loop_completed (todo : list Z) :
  forall (ck ms : nat) (w : world) (counts : nat * nat),
    fst (sample_loop float_pow primary replica table todo ck ms w)
      = inr counts ->
    exists ids : list Z,
      Forall2 (passes float_pow primary replica table) todo ids /\
      sent (snd (sample_loop float_pow primary replica table todo ck ms w))
        = sent w ++ concat (map (point_queries table) ids) /\
      out (snd (sample_loop float_pow primary replica table todo ck ms w))
        = out w ++ replicate (length todo) Progress /\
      (fst counts + snd counts = ck + ms + length todo)%nat.
Proof.
  induction todo as [|i rest IH]; intros ck ms w counts H.
  - exists []. simpl in *. injection H as <-. simpl.
    rewrite !app_nil_r. repeat split; [constructor|lia].
  - rewrite sample_loop_step in H |- *.
    destruct (sample_id float_pow i) as [e|id_] eqn:Hid; [discriminate|].
    pose proof (check_sent primary replica table id_ w) as Hsent.
    pose proof (check_out_pass primary replica table id_ w) as Hout.
    pose proof (check_fst_fresh primary replica table id_ w) as Hfr.
    destruct (check primary replica table id_ w) as [[e|[[|]|]] w'];
      try discriminate; simpl in Hsent, Hout, Hfr;
      specialize (Hsent _ eq_refl);
      specialize (Hout _ eq_refl ltac:(discriminate));
      destruct (IH _ _ _ _ H) as (ids & Hids & Hs & Ho & Hc);
      exists (id_ :: ids);
      (split; [constructor; [split; [exact Hid|rewrite <- Hfr; auto]|exact Hids]|]);
      (split; [rewrite Hs; simpl; rewrite Hsent, <- app_assoc; reflexivity|]);
      (split; [rewrite Ho; simpl; rewrite Hout, <- app_assoc; reflexivity
              |simpl; lia]).
Qed.

Lemma sample_loop_first_mismatch (pre ids : list Z) :
  Forall2 (passes float_pow primary replica table) pre ids ->
  forall (i id_ : Z) (post : list Z) (ck ms : nat) (w : world),
    sample_id float_pow i = inr id_ ->
    fst (check primary replica table id_ fresh) = inr (Some false) ->
    fst (sample_loop float_pow primary replica table (pre ++ i :: post) ck ms w)
      = inl (Exception (RowsDiffer id_)) /\
    sent (snd (sample_loop float_pow primary replica table
                           (pre ++ i :: post) ck ms w))
      = sent w ++ concat (map (point_queries table) ids)
               ++ point_queries table id_.
Proof.
  induction 1 as [|j idj pre ids [Hj Hpass] Hall IH];
    intros i id_ post ck ms w Hid Hbad.
  - change ([] ++ i :: post) with (i :: post).
    rewrite sample_loop_step, Hid.
    pose proof (check_sent primary replica table id_ w) as Hsent.
    pose proof (check_fst_fresh primary replica table id_ w) as Hfr.
    rewrite Hbad in Hfr.
    destruct (check primary replica table id_ w) as [r w']. simpl in *.
    subst r. split; [reflexivity|]. apply (Hsent _ eq_refl).
  - change ((j :: pre) ++ i :: post) with (j :: (pre ++ i :: post)).
    rewrite sample_loop_step, Hj.
    pose proof (check_sent primary replica table idj w) as Hsent.
    pose proof (check_fst_fresh primary replica table idj w) as Hfr.
    destruct (check primary replica table idj w) as [r w'].
    cbn [fst snd] in Hsent, Hfr.
    destruct Hpass as [Hp|Hp]; rewrite Hp in Hfr; subst r;
      specialize (Hsent _ eq_refl).
    + destruct (IH i id_ post ck (S ms) (snd (print Progress w')) Hid Hbad)
        as [H1 H2].
      split; [exact H1|]. rewrite H2. simpl. rewrite Hsent, <- !app_assoc.
      reflexivity.
    + destruct (IH i id_ post (S ck) ms (snd (print Progress w')) Hid Hbad)
        as [H1 H2].
      split; [exact H1|]. rewrite H2. simpl. rewrite Hsent, <- !app_assoc.
      reflexivity.
Qed.

(** A sampling loop that completes has probed, index by index and in
    order, the id sampled for the index, first on the primary and then on
    the replica, and nothing else; none of the probes answered [False];
    the progress bar has advanced once per index; and the two counters
    have grown by the number of indices between them. *)
Theorem sampling_completed
    (todo : list Z) (ck ms : nat) (w : world) (counts : nat * nat) :
  fst (sample_loop float_pow primary replica table todo ck ms w)
    = inr counts ->
  exists ids : list Z,
    Forall2 (passes float_pow primary replica table) todo ids /\
    sent (snd (sample_loop float_pow primary replica table todo ck ms w))
      = sent w ++ concat (map (point_queries table) ids) /\
    out (snd (sample_loop float_pow primary replica table todo ck ms w))
      = out w ++ replicate (length todo) Progress /\
    (fst counts + snd counts = ck + ms + length todo)%nat.
Proof. apply sample_loop_completed. Qed.

(** The sampling loop fails at the first index whose rows differ: it
    raises the error that names the id of that index, and the statements
    sent are those of the indices before it and of that index; the indices
    after it are never probed. *)
Theorem sampling_fails_at_first_mismatch
    (pre ids : list Z) (i id_ : Z) (post : list Z) (ck ms : nat) (w : world) :
  Forall2 (passes float_pow primary replica table) pre ids ->
  sample_id float_pow i = inr id_ ->
  fst (check primary replica table id_ fresh) = inr (Some false) ->
  fst (sample_loop float_pow primary replica table (pre ++ i :: post) ck ms w)
    = inl (Exception (RowsDiffer id_)) /\
  sent (snd (sample_loop float_pow primary replica table
                         (pre ++ i :: post) ck ms w))
    = sent w ++ concat (map (point_queries table) ids)
             ++ point_queries table id_.
Proof. intros Hpre. apply sample_loop_first_mismatch. exact Hpre. Qed.



End SamplingRuns.

(** ** More on the recency check *)

Lemma last_1000_loop_pass_equal (r1 r2 : list row) :
  forall (idx : nat) (l : locals) (w : world),
    length r1 = (idx + length r2)%nat ->
    fst (fst (last_1000_loop r1 idx r2 l w)) = inr tt ->
    Forall2 (fun x y : row => py_dict_ne (dict x) (dict y) = false) (drop idx r1) r2.
Proof.
  induction r2 as [|row2 rest IH]; intros idx l w Hlen Hok.
  - simpl in Hlen. rewrite drop_ge by lia. constructor.
  - simpl in Hlen, Hok.
    destruct (r1 !! idx) as [r|] eqn:E.
    + simpl in Hok. rewrite (drop_S _ _ _ E).
      destruct (py_dict_ne (dict r) (dict row2)) eqn:Hne.
      * destruct (item0 r); discriminate.
      * constructor; [exact Hne|].
        eapply (IH (S idx)); [lia|exact Hok].
    + apply lookup_ge_None in E. lia.
Qed.

Section RecencyMore.

Variables primary replica : connection.
Variable table : string.

(** What [last_1000] does up to its loop, server errors included. *)
Lemma last_1000_cases (w : world) :
  last_1000 primary replica table w =
    let q1 := SelectLatestIds table in
    match replica q1 with
    | inl e =>
        (inl (DatabaseError e),
         World (c1 w) (c2 w) (sent w ++ [(Replica, q1)]) (out w))
    | inr available =>
        match items0 available with
        | inl e =>
            (inl e, World (c1 w) [] (sent w ++ [(Replica, q1)]) (out w))
        | inr ids =>
            let q := SelectByIds table ids in
            match primary q with
            | inl e =>
                (inl (DatabaseError e),
                 World (c1 w) []
                       (sent w ++ [(Replica, q1); (Primary, q)]) (out w))
            | inr r1 =>
                match replica q with
                | inl e =>
                    (inl (DatabaseError e),
                     World r1 [] (sent w ++ recency_queries table ids) (out w))
                | inr r2 =>
                    if decide (length r1 ≠ length r2)
                    then (inl (Exception Last1000Count), fetched table ids w)
                    else
                      match last_1000_loop r1 0 r2 (Locals 0 0 None)
                                           (fetched table ids w) with
                      | (inl e, _, w') => (inl e, w')
                      | (inr _, l, w') =>
                          print (PrintOK (checked l) (missing l)) w'
                      end
                end
            end
        end
    end.
Proof.
  cbv zeta.
  destruct (replica (SelectLatestIds table)) as [e|available] eqn:H1.
  { unfold last_1000, bind, execute. simpl. rewrite H1. reflexivity. }
  destruct (items0 available) as [e|ids] eqn:H2.
  { unfold last_1000, bind, execute, fetchall. simpl. rewrite H1. simpl.
    rewrite H2. reflexivity. }
  destruct (primary (SelectByIds table ids)) as [e|r1] eqn:H3.
  { unfold last_1000, bind, execute, fetchall. simpl. rewrite H1. simpl.
    rewrite H2. simpl. rewrite H3. rewrite <- app_assoc. reflexivity. }
  destruct (replica (SelectByIds table ids)) as [e|r2] eqn:H4.
  { unfold last_1000, bind, execute, fetchall, recency_queries. simpl.
    rewrite H1. simpl. rewrite H2. simpl. rewrite H3. simpl. rewrite H4.
    rewrite <- !app_assoc. reflexivity. }
  apply (last_1000_run primary replica table available ids r1 r2 H1 H2 H3 H4).
Qed.

(** a recency check that passes has found the two result sets of the
    same length and equal row by row, as dictionaries. *)
Theorem last_1000_pass_means_equal
    (available : list row) (ids : list value) (r1 r2 : list row) (w : world) :
  replica (SelectLatestIds table) = inr available ->
  items0 available = inr ids ->
  primary (SelectByIds table ids) = inr r1 ->
  replica (SelectByIds table ids) = inr r2 ->
  fst (last_1000 primary replica table w) = inr tt ->
  Forall2 (fun x y : row => py_dict_ne (dict x) (dict y) = false) r1 r2.
Proof.
  intros H1 H2 H3 H4. rewrite last_1000_cases. cbv zeta.
  rewrite H1, H2, H3, H4.
  destruct (decide (length r1 ≠ length r2)) as [n|n]; [discriminate|].
  apply dec_stable in n.
  pose proof (last_1000_loop_pass_equal r1 r2 0 (Locals 0 0 None)
                (fetched table ids w) n) as Hloop.
  destruct (last_1000_loop r1 0 r2 (Locals 0 0 None) (fetched table ids w))
    as [[[e|[]] l] w']; [discriminate|].
  intros _. apply Hloop. reflexivity.
Qed.

(** when the replica's table has no row, [last_1000] asks the primary
    for an empty list of ids.  If the primary rejects that statement the
    check raises the server's error, with nothing more sent; if both
    databases answer with no row, the check passes with 0 checked. *)
Theorem last_1000_empty_replica (w : world) :
  replica (SelectLatestIds table) = inr [] ->
  (forall msg : string,
     primary (SelectByIds table []) = inl msg ->
     fst (last_1000 primary replica table w) = inl (DatabaseError msg) /\
     sent (snd (last_1000 primary replica table w))
       = sent w ++ [(Replica, SelectLatestIds table);
                    (Primary, SelectByIds table [])]) /\
  (primary (SelectByIds table []) = inr [] ->
   replica (SelectByIds table []) = inr [] ->
   last_1000 primary replica table w
     = (inr tt, snd (print (PrintOK 0 0) (fetched table [] w)))).
Proof.
  intros H1. split.
  - intros msg H3. rewrite last_1000_cases. cbv zeta.
    rewrite H1. simpl. rewrite H3. split; reflexivity.
  - intros H3 H4. rewrite last_1000_cases. cbv zeta.
    rewrite H1. simpl. rewrite H3, H4. reflexivity.
Qed.

End RecencyMore.

(** ** More on the lag *)

Section LagMore.

Variables primary replica : connection.
Variable table : string.

Lemma lag_cases (P R : connection) (w : world) :
  fst (lag P R table w) =
    match P (SelectMaxUpdatedAt table) with
    | inl e => inl (DatabaseError e)
    | inr rs1 =>
        match R (SelectMaxUpdatedAt table) with
        | inl e => inl (DatabaseError e)
        | inr rs2 =>
            match opt_item0 (head rs1) with
            | inl e => inl e
            | inr v1 =>
                match opt_item0 (head rs2) with
                | inl e => inl e
                | inr v2 => py_sub v1 v2
                end
            end
        end
    end.
Proof.
  destruct (P (SelectMaxUpdatedAt table)) as [e|rs1] eqn:H1.
  { unfold lag, bind, execute. simpl. rewrite H1. reflexivity. }
  destruct (R (SelectMaxUpdatedAt table)) as [e|rs2] eqn:H2.
  { unfold lag, bind, execute. simpl. rewrite H1. simpl. rewrite H2.
    reflexivity. }
  rewrite (lag_run P R table rs1 rs2 H1 H2 w). cbv zeta.
  destruct (opt_item0 (head rs1)); [reflexivity|].
  destruct (opt_item0 (head rs2)); reflexivity.
Qed.

(** Swapping the two databases negates the lag: when [lag] returns the
    duration [d], [lag] with primary and replica exchanged returns [- d]. *)
Theorem lag_swap_negates (w w' : world) (d : Z) :
  fst (lag primary replica table w) = inr (VTimedelta d) ->
  fst (lag replica primary table w') = inr (VTimedelta (- d)).
Proof.
  rewrite !lag_cases.
  destruct (primary (SelectMaxUpdatedAt table)) as [e|rs1]; [discriminate|].
  destruct (replica (SelectMaxUpdatedAt table)) as [e|rs2]; [discriminate|].
  destruct (opt_item0 (head rs1)) as [e|v1]; [discriminate|].
  destruct (opt_item0 (head rs2)) as [e|v2]; [discriminate|].
  destruct v1, v2; simpl; try discriminate;
    try (destruct (float_of_int _); discriminate);
    intros [= <-]; do 2 f_equal; lia.
Qed.

End LagMore.

(** ** A run of [main] that passes *)

Lemma bind_inr {A B} (m : M A) (k : A -> M B) (w w' : world) (b : B) :
  bind m k w = (inr b, w') ->
  exists (a : A) (w1 : world), m w = (inr a, w1) /\ k a w1 = (inr b, w').
Proof.
  unfold bind. destruct (m w) as [[e|a] w1]; [discriminate|].
  intros H. exists a, w1. split; [reflexivity|exact H].
Qed.

Lemma length_range (n : Z) : length (range n) = Z.to_nat n.
Proof. unfold range. rewrite length_fmap, length_seq. reflexivity. Qed.

Lemma length_point_queries (table : string) (ids : list Z) :
  length (concat (map (point_queries table) ids)) = (2 * length ids)%nat.
Proof.
  induction ids as [|i ids IH]; [reflexivity|].
  simpl. rewrite IH. lia.
Qed.

Section MainPasses.

Variable float_pow : spec_float -> spec_float -> spec_float.
Variables primary replica : connection.
Variable table : string.

Lemma last_1000_pass (w w' : world) :
  last_1000 primary replica table w = (inr tt, w') ->
  exists (ids : list value) (n : nat),
    w' = snd (print (PrintOK n 0) (fetched table ids w)).
Proof.
  rewrite last_1000_cases. cbv zeta.
  destruct (replica (SelectLatestIds table)) as [e|available]; [discriminate|].
  destruct (items0 available) as [e|ids]; [discriminate|].
  destruct (primary (SelectByIds table ids)) as [e|r1]; [discriminate|].
  destruct (replica (SelectByIds table ids)) as [e|r2]; [discriminate|].
  destruct (decide (length r1 ≠ length r2)) as [n|n]; [discriminate|].
  apply dec_stable in n.
  pose proof (last_1000_loop_aligned r1 r2 0 (Locals 0 0 None)
                (fetched table ids w) n) as Hloop.
  destruct (last_1000_loop r1 0 r2 (Locals 0 0 None) (fetched table ids w))
    as [[[e|u] l] w1]; [discriminate|].
  destruct Hloop as [Hm Hc]. destruct (Hc u eq_refl) as [_ ->].
  unfold print. simpl. intros [= <-]. exists ids, (checked l).
  simpl in Hm. rewrite Hm. reflexivity.
Qed.

Lemma lag_pass (w w' : world) (v : value) :
  lag primary replica table w = (inr v, w') ->
  sent w' = sent w ++ lag_queries table /\ out w' = out w.
Proof.
  destruct (primary (SelectMaxUpdatedAt table)) as [e|rs1] eqn:H1.
  { unfold lag, bind, execute. simpl. rewrite H1. discriminate. }
  destruct (replica (SelectMaxUpdatedAt table)) as [e|rs2] eqn:H2.
  { unfold lag, bind, execute. simpl. rewrite H1. simpl. rewrite H2.
    discriminate. }
  rewrite (lag_run primary replica table rs1 rs2 H1 H2 w). cbv zeta.
  destruct (opt_item0 (head rs1)); [discriminate|].
  destruct (opt_item0 (head rs2)); [discriminate|].
  intros [= _ <-]. split; reflexivity.
Qed.

(** a run of [main] that passes has advanced the progress bar once per
    index, [ROWS] times in all, then printed the sampling counts, which add
    up to [ROWS], then the recency counts with nothing missing, then the
    lag; and it has sent two statements per index, three for the recency
    check and two for the lag. *)
Theorem main_pass_report (w w' : world) :
  main float_pow primary replica table w = (inr tt, w') ->
  exists (c m n : nat) (v : value),
    out w' = out w ++ replicate (Z.to_nat ROWS) Progress
                   ++ [PrintOK c m; PrintOK n 0; PrintLag v] /\
    (c + m = Z.to_nat ROWS)%nat /\
    length (sent w') = (length (sent w) + 2 * Z.to_nat ROWS + 5)%nat.
Proof.
  unfold main. intros H.
  apply bind_inr in H as ([] & w0 & H0 & H).
  apply bind_inr in H as (counts & w1 & H1 & H).
  apply bind_inr in H as ([] & w2 & H2 & H).
  apply bind_inr in H as ([] & w3 & H3 & H).
  apply bind_inr in H as (v & w4 & H4 & H).
  unfold new_cursors in H0. injection H0 as <-.
  pose proof (sample_loop_completed float_pow primary replica table
                (range ROWS) 0 0 _ counts ltac:(rewrite H1; reflexivity))
    as (ids & Hids & Hs & Ho & Hc).
  rewrite H1 in Hs, Ho. cbn [snd] in Hs, Ho.
  apply Forall2_length in Hids. rewrite length_range in Hids, Ho, Hc.
  unfold print in H2. injection H2 as <-.
  apply last_1000_pass in H3 as (rids & n & ->).
  apply lag_pass in H4 as [Hs4 Ho4].
  unfold print in H. injection H as <-.
  exists (fst counts), (snd counts), n, v. cbn [out sent].
  rewrite Ho4, Hs4. cbn [out sent fetched print snd]. rewrite Ho, Hs.
  cbn [out sent].
  split; [|split].
  - rewrite <- !app_assoc. reflexivity.
  - lia.
  - rewrite !length_app, length_point_queries. cbn [length recency_queries lag_queries].
    lia.
Qed.

End MainPasses.

(** ** The process environment *)

(** whatever the environment held before, [connect] reads back the two
    URLs that [checksummer] was given, the primary's first. *)
Theorem connect_reads_checksummer_urls
    (primary replica : string) (debug : bool) (env : gmap string string) :
  connect (checksummer primary replica debug env) = (Some primary, Some replica).
Proof.
  unfold connect, getenv, checksummer.
  destruct debug; simplify_map_eq; reflexivity.
Qed.

(** [checksummer] only ever switches the trace on.  With [--debug]
    every statement is traced; with [--release] the trace is as the
    environment had it, so a DEBUG variable that is already set keeps the
    trace on. *)
Theorem debug_trace_after_checksummer
    (primary replica : string) (debug : bool) (env : gmap string string)
    (dsn : string) (q : query) :
  _debug (checksummer primary replica debug env) dsn q
    = if debug || truthy (getenv env "DEBUG") then [(dsn, q)] else [].
Proof.
  unfold _debug, getenv, checksummer.
  destruct debug; simplify_map_eq; reflexivity.
Qed.

(** ** The legacy recency check and the legacy [main] *)

Lemma legacy_loop_prefix (r1 p2 : list row) :
  Forall2 (fun x y => py_tuple_eq (Legacy.tuple x) (Legacy.tuple y) = true) r1 p2 ->
  forall done extra : list row,
    Legacy.last_1000_loop r1 (length done) (done ++ p2 ++ extra) = inr tt.
Proof.
  induction 1 as [|x y r1 p2 Hxy Hall IH]; intros done extra; [reflexivity|].
  simpl. rewrite list_lookup_middle by reflexivity.
  rewrite Hxy. cbn [negb].
  specialize (IH (done ++ [y]) extra).
  rewrite length_app in IH. simpl in IH.
  replace (length done + 1)%nat with (S (length done)) in IH by lia.
  rewrite <- app_assoc in IH. exact IH.
Qed.

Lemma legacy_loop_short (p1 r2 : list row) :
  Forall2 (fun x y => py_tuple_eq (Legacy.tuple x) (Legacy.tuple y) = true) p1 r2 ->
  forall (done more : list row),
    more ≠ [] ->
    Legacy.last_1000_loop (p1 ++ more) (length done) (done ++ r2)
      = inl IndexError.
Proof.
  induction 1 as [|x y p1 r2 Hxy Hall IH]; intros done more Hmore.
  - destruct more as [|m more]; [contradiction|]. simpl.
    rewrite app_nil_r, lookup_ge_None_2 by lia. reflexivity.
  - simpl. rewrite list_lookup_middle by reflexivity.
    rewrite Hxy. cbn [negb].
    specialize (IH (done ++ [y]) more Hmore).
    rewrite length_app in IH. simpl in IH.
    replace (length done + 1)%nat with (S (length done)) in IH by lia.
    rewrite <- app_assoc in IH. exact IH.
Qed.

Section LegacyRecency.

Variables src dest : connection.
Variable table : string.
Variables (available : list row) (ids : list value) (r1 r2 : list row).
Hypothesis latest_ok : dest (SelectLatestIds table) = inr available.
Hypothesis ids_ok : items0 available = inr ids.
Hypothesis src_ok : src (SelectByIds table ids) = inr r1.
Hypothesis dest_ok : dest (SelectByIds table ids) = inr r2.

Lemma legacy_last_1000_run (w : world) :
  Legacy.last_1000 src dest table w
    = (Legacy.last_1000_loop r1 0 r2, fetched table ids w).
Proof.
  unfold Legacy.last_1000, bind, execute, fetchall, fetched, recency_queries.
  simpl. rewrite latest_ok. simpl. rewrite ids_ok. simpl.
  rewrite src_ok. simpl. rewrite dest_ok. simpl.
  rewrite <- !app_assoc. simpl.
  destruct (Legacy.last_1000_loop r1 0 r2); reflexivity.
Qed.

(** The legacy recency check has no test on the lengths.  When the
    destination gives more rows than the source and the rows of the source
    agree with the first rows of the destination, the surplus rows are
    never compared and the check passes. *)
Theorem legacy_last_1000_surplus_rows_pass
    (p2 extra : list row) (w : world) :
  r2 = p2 ++ extra ->
  Forall2 (fun x y => py_tuple_eq (Legacy.tuple x) (Legacy.tuple y) = true) r1 p2 ->
  Legacy.last_1000 src dest table w = (inr tt, fetched table ids w).
Proof.
  intros E Hall. rewrite legacy_last_1000_run, E.
  pose proof (legacy_loop_prefix r1 p2 Hall [] extra) as H.
  simpl in H. rewrite H. reflexivity.
Qed.

(** when the destination gives fewer rows than the source and its rows
    agree with the first rows of the source, the legacy recency check ends
    in an IndexError, not in an error of the auditor's. *)
Theorem legacy_last_1000_short_destination
    (p1 more : list row) (w : world) :
  r1 = p1 ++ more ->
  more ≠ [] ->
  Forall2 (fun x y => py_tuple_eq (Legacy.tuple x) (Legacy.tuple y) = true) p1 r2 ->
  Legacy.last_1000 src dest table w = (inl IndexError, fetched table ids w).
Proof.
  intros E Hmore Hall. rewrite legacy_last_1000_run, E.
  pose proof (legacy_loop_short p1 r2 Hall [] more Hmore) as H.
  simpl in H. rewrite H. reflexivity.
Qed.

End LegacyRecency.

Lemma quiet_bind {A B} (m : M A) (k : A -> M B) :
  quiet m -> (forall a, quiet (k a)) -> quiet (bind m k).
Proof.
  intros Hm Hk w msg. unfold bind.
  pose proof (Hm w msg) as H.
  destruct (m w) as [[e|a] w1]; [|apply Hk].
  simpl in *. intros [= ->]. apply H. reflexivity.
Qed.

Lemma quiet_ret {A} (a : A) : quiet (ret a).
Proof. intros w msg. discriminate. Qed.

Lemma quiet_print (o : output) : quiet (print o).
Proof. intros w msg. discriminate. Qed.

Lemma quiet_new_cursors : quiet new_cursors.
Proof. intros w msg. discriminate. Qed.

Lemma Forall2_tuple_refl (rs : list row) :
  Forall self_equal_row rs ->
  Forall2 (fun x y : row => py_tuple_eq (Legacy.tuple x) (Legacy.tuple y) = true) rs rs.
Proof.
  induction 1 as [|r rs Hr Hrs IH]; [constructor 1|].
  constructor 2; [apply tuple_self_equal; exact Hr|exact IH].
Qed.

Section LegacySelf.

Variable float_pow : spec_float -> spec_float -> spec_float.
Variable d : connection.
Variable table : string.
Hypothesis d_self_equal : self_equal_db d.

Lemma legacy_sample_id_error (i : Z) (e : exn) :
  Legacy.sample_id float_pow i = inl e -> e = OverflowError \/ e = ValueError.
Proof.
  unfold Legacy.sample_id, Legacy._func, float_of_int.
  destruct (binary_normalize prec emax i 0 false);
    try (intros [= <-]; auto);
    match goal with
    | |- context [py_round ?x] => destruct x; simpl; intros [= <-]; auto
    end.
Qed.

Lemma legacy_check_self (id_ : Z) (w : world) :
  (exists e, fst (Legacy.check d d table id_ w) = inl (DatabaseError e)) \/
  fst (Legacy.check d d table id_ w) = inr None \/
  fst (Legacy.check d d table id_ w) = inr (Some true).
Proof.
  destruct (d (SelectById table id_)) as [e|rs] eqn:E.
  - left. exists e. unfold Legacy.check, bind, execute. simpl. rewrite E.
    reflexivity.
  - right. rewrite (legacy_check_run d d table id_ rs rs w E E).
    destruct rs as [|a rs]; simpl; [left; reflexivity|right].
    rewrite tuple_self_equal; [reflexivity|].
    apply d_self_equal in E. inversion E; assumption.
Qed.

Lemma legacy_sample_loop_quiet (todo : list Z) :
  quiet (Legacy.sample_loop float_pow d d table todo).
Proof.
  induction todo as [|i rest IH]; [apply quiet_ret|].
  intros w msg. simpl. unfold bind at 1.
  destruct (Legacy.sample_id float_pow i) as [e|id_] eqn:Hid.
  - apply legacy_sample_id_error in Hid. simpl.
    destruct Hid as [-> | ->]; discriminate.
  - simpl. unfold bind at 1.
    pose proof (legacy_check_self id_ w) as Hc.
    destruct (Legacy.check d d table id_ w) as [r w']. simpl in Hc.
    destruct Hc as [[e ->]|[-> | ->]].
    + discriminate.
    + apply (quiet_bind (print Progress)); [apply quiet_print|intros _; exact IH].
    + apply (quiet_bind (print Progress)); [apply quiet_print|intros _; exact IH].
Qed.

Lemma legacy_last_1000_quiet : quiet (Legacy.last_1000 d d table).
Proof.
  intros w msg.
  destruct (d (SelectLatestIds table)) as [e|available] eqn:H1.
  { unfold Legacy.last_1000, bind, execute. simpl. rewrite H1. discriminate. }
  destruct (items0 available) as [e|ids] eqn:H2.
  { unfold Legacy.last_1000, bind, execute, fetchall. simpl. rewrite H1. simpl.
    rewrite H2. simpl. apply items0_error in H2. subst e. discriminate. }
  destruct (d (SelectByIds table ids)) as [e|rs] eqn:H3.
  { unfold Legacy.last_1000, bind, execute, fetchall. simpl. rewrite H1. simpl.
    rewrite H2. simpl. rewrite H3. discriminate. }
  rewrite (legacy_last_1000_run d d table available ids rs rs H1 H2 H3 H3 w).
  pose proof (legacy_loop_prefix rs rs
                (Forall2_tuple_refl rs (d_self_equal _ _ H3)) [] []) as H.
  simpl in H. rewrite app_nil_r in H. simpl. rewrite H. discriminate.
Qed.

Lemma lag_quiet (P R : connection) : quiet (lag P R table).
Proof.
  intros w msg. rewrite lag_cases.
  destruct (P (SelectMaxUpdatedAt table)) as [e|rs1]; [discriminate|].
  destruct (R (SelectMaxUpdatedAt table)) as [e|rs2]; [discriminate|].
  destruct (head rs1) as [[|[k1 v1] c1]|]; simpl; try discriminate.
  destruct (head rs2) as [[|[k2 v2] c2]|]; simpl; try discriminate.
  destruct v1, v2; simpl; try discriminate;
    destruct (float_of_int _) as [e|f] eqn:Hf; try discriminate;
    unfold float_of_int in Hf;
    destruct (binary_normalize prec emax _ 0 false); inversion Hf; discriminate.
Qed.

(** The legacy [main] makes both its cursors on the source connection,
    so it compares the source with itself: whatever the destination holds,
    and as long as the values the source returns are equal to themselves
    (no NaN), the run never ends in an error that reports a difference. *)
Theorem legacy_main_never_reports_a_difference
    (dest : connection) (w : world) (msg : message) :
  fst (Legacy.main float_pow d dest table w) ≠ inl (Exception msg).
Proof.
  revert w msg. change (quiet (Legacy.main float_pow d dest table)).
  unfold Legacy.main. cbv zeta.
  apply quiet_bind; [apply quiet_new_cursors|intros _].
  apply quiet_bind; [apply legacy_sample_loop_quiet|intros _].
  apply quiet_bind; [apply legacy_last_1000_quiet|intros _].
  apply quiet_bind; [apply lag_quiet|intros l].
  apply quiet_print.
Qed.

End LegacySelf.

(** ** Examples of the further properties *)

(** The primary is down: nothing reaches the replica. *)
Lemma check_stops_at_server_error_witness :
  check refusing (table_db t1) "t" 5 fresh =
    (inl (DatabaseError "server closed the connection unexpectedly"),
     World (c1 fresh) (c2 fresh) (sent fresh ++ [(Primary, SelectById "t" 5)])
           (out fresh)).
Proof.
  destruct (check_stops_at_server_error refusing (table_db t1) "t" 5 fresh)
    as [H _].
  apply H. reflexivity.
Defined.

Lemma check_ignores_column_order_witness :
  fst (check (table_db t3) (table_db t5) "t" 1 fresh) = inr (Some true).
Proof.
  apply (check_ignores_column_order (table_db t3) (table_db t5) "t" 1
           t3 t5 (mk_row 1 "a" 10)
           [("name"%string, VText "a"); ("id"%string, VInt 1);
            ("updated_at"%string, VDatetime 10)] fresh);
    try reflexivity.
  - apply (bool_decide_unpack _). vm_compute. exact I.
  - apply perm_swap.
  - repeat constructor.
Defined.


(** Primary [t1], replica [t2]: id 0 is on neither side, id 1 is equal. *)
Lemma sampling_completed_witness :
  exists ids : list Z,
    Forall2 (passes pow_samples (table_db t1) (table_db t2) "t") [0; 1] ids /\
    sent (snd (sample_loop pow_samples (table_db t1) (table_db t2) "t"
                           [0; 1] 0 0 fresh))
      = sent fresh ++ concat (map (point_queries "t") ids) /\
    out (snd (sample_loop pow_samples (table_db t1) (table_db t2) "t"
                          [0; 1] 0 0 fresh))
      = out fresh ++ replicate (length [0; 1]) Progress /\
    (fst (1%nat, 1%nat) + snd (1%nat, 1%nat) = 0 + 0 + length [0; 1])%nat.
Proof.
  apply (sampling_completed pow_samples (table_db t1) (table_db t2) "t"
           [0; 1] 0%nat 0%nat fresh (1%nat, 1%nat)).
  reflexivity.
Defined.

(** Primary [t1], replica [t2]: indices 0 and 1 pass, index 2 is sampled as
    id 5, whose rows differ; indices 3 and 4 are never probed. *)
Lemma sampling_fails_at_first_mismatch_witness :
  fst (sample_loop pow_samples (table_db t1) (table_db t2) "t"
                   ([0; 1] ++ 2 :: [3; 4]) 0 0 fresh)
    = inl (Exception (RowsDiffer 5)) /\
  sent (snd (sample_loop pow_samples (table_db t1) (table_db t2) "t"
                         ([0; 1] ++ 2 :: [3; 4]) 0 0 fresh))
    = sent fresh ++ concat (map (point_queries "t") [0; 1])
                 ++ point_queries "t" 5.
Proof.
  apply (sampling_fails_at_first_mismatch pow_samples (table_db t1)
           (table_db t2) "t" [0; 1] [0; 1] 2 5 [3; 4] 0%nat 0%nat fresh).
  - constructor 2; [split; [reflexivity|left; reflexivity]|].
    constructor 2; [split; [reflexivity|right; reflexivity]|].
    constructor 1.
  - reflexivity.
  - reflexivity.
Defined.

(** The database [t1] against itself, with the square for the power: the
    whole run passes. *)
Lemma main_pass_report_witness :
  exists (c m n : nat) (v : value),
    out (snd (main pow_square (table_db t1) (table_db t1) "t" fresh))
      = out fresh ++ replicate (Z.to_nat ROWS) Progress
                  ++ [PrintOK c m; PrintOK n 0; PrintLag v] /\
    (c + m = Z.to_nat ROWS)%nat /\
    length (sent (snd (main pow_square (table_db t1) (table_db t1) "t" fresh)))
      = (length (sent fresh) + 2 * Z.to_nat ROWS + 5)%nat.
Proof.
  apply (main_pass_report pow_square (table_db t1) (table_db t1) "t" fresh).
  assert (H : fst (main pow_square (table_db t1) (table_db t1) "t" fresh)
              = inr tt) by (vm_compute; reflexivity).
  destruct (main pow_square (table_db t1) (table_db t1) "t" fresh) as [r w'].
  simpl in H. subst r. reflexivity.
Defined.

Lemma last_1000_pass_means_equal_witness :
  Forall2 (fun x y : row => py_dict_ne (dict x) (dict y) = false)
          (order_by_id_desc t1) (order_by_id_desc t1).
Proof.
  apply (last_1000_pass_means_equal (table_db t1) (table_db t1) "t"
           (id_rows [14; 5; 1]) [VInt 14; VInt 5; VInt 1]
           (order_by_id_desc t1) (order_by_id_desc t1) fresh);
    reflexivity.
Defined.

(** Two empty tables: the primary rejects the empty list of ids. *)
Lemma last_1000_empty_replica_witness :
  fst (last_1000 (table_db []) (table_db []) "t" fresh)
    = inl (DatabaseError "syntax error at or near )") /\
  sent (snd (last_1000 (table_db []) (table_db []) "t" fresh))
    = sent fresh ++ [(Replica, SelectLatestIds "t");
                     (Primary, SelectByIds "t" [])].
Proof.
  destruct (last_1000_empty_replica (table_db []) (table_db []) "t" fresh
              eq_refl) as [H _].
  apply H. reflexivity.
Defined.

(** Primary [t3] (last modified at 10), replica [t1] (at 30): -20 one way,
    20 the other. *)
Lemma lag_swap_negates_witness :
  fst (lag (table_db t1) (table_db t3) "t" fresh) = inr (VTimedelta (- (-20))).
Proof.
  apply (lag_swap_negates (table_db t3) (table_db t1) "t" fresh fresh (-20)).
  reflexivity.
Defined.

(** Source [t6] has the row of id 14 only, destination [t1] has three rows:
    the legacy check passes. *)
Lemma legacy_last_1000_surplus_rows_pass_witness :
  Legacy.last_1000 (table_db t6) (table_db t1) "t" fresh
    = (inr tt, fetched "t" [VInt 14; VInt 5; VInt 1] fresh).
Proof.
  apply (legacy_last_1000_surplus_rows_pass (table_db t6) (table_db t1) "t"
           (id_rows [14; 5; 1]) [VInt 14; VInt 5; VInt 1]
           [mk_row 14 "c" 20] (order_by_id_desc t1)
           eq_refl eq_refl eq_refl eq_refl
           [mk_row 14 "c" 20] [mk_row 5 "b" 30; mk_row 1 "a" 10] fresh).
  - reflexivity.
  - constructor 2; [reflexivity|constructor 1].
Defined.

(** Source [t7] holds the row of id 1 twice, destination [t3] once. *)
Lemma legacy_last_1000_short_destination_witness :
  Legacy.last_1000 (table_db t7) (table_db t3) "t" fresh
    = (inl IndexError, fetched "t" [VInt 1] fresh).
Proof.
  apply (legacy_last_1000_short_destination (table_db t7) (table_db t3) "t"
           (id_rows [1]) [VInt 1]
           [mk_row 1 "a" 10; mk_row 1 "a" 10] [mk_row 1 "a" 10]
           eq_refl eq_refl eq_refl eq_refl
           [mk_row 1 "a" 10] [mk_row 1 "a" 10] fresh).
  - reflexivity.
  - discriminate.
  - constructor 2; [reflexivity|constructor 1].
Defined.

(** The source [t1] and a destination that differs from it ([t2]): the
    legacy run cannot end in the error for id 5. *)
Lemma legacy_main_never_reports_a_difference_witness :
  fst (Legacy.main pow_square (table_db t1) (table_db t2) "t" fresh)
    <> inl (Exception (RowsDiffer 5)).
Proof.
  apply (legacy_main_never_reports_a_difference pow_square (table_db t1) "t"
           (table_db_self_equal t1 t1_self_equal) (table_db t2) fresh
           (RowsDiffer 5)).
Defined.

(** A source row that holds a NaN is not equal to itself: for it the legacy
    [check] answers [False] even though both cursors read the source. *)
Example legacy_check_nan :
  fst (Legacy.check (table_db t_nan) (table_db t_nan) "t" 1 fresh)
    = inr (Some false).
Proof. reflexivity. Qed.

